(** * Heat-equation stencils and the multi-device Mandelbrot split

    A shallow embedding of two notebooks of the course material:

    - the Numba stencil notebook ([central_diff_stencil], [simulation],
      [central_diff_stencil2D], [simulation2D] and the two set-up cells that
      compute the mesh Fourier numbers [F], [Fx], [Fy]);
    - the CuPy multi-GPU exercise ([mandelbrot_kernel] and the cells that
      split the image by columns, and by rows and columns).

    Numbers are IEEE-754 binary64 values (Rocq's primitive floats), the
    [float64] of NumPy, Numba and CuPy, every operation rounded on its own
    (no fused multiply-add).  The arrays of the stencil notebook are a shape
    and a flat row-major buffer; the images of the exercise are lists of
    rows.  Python objects live in a store indexed by reference, so that
    aliasing between the caller's array and the arrays produced by the
    stencil is explicit. *)

From Stdlib Require Import ZArith Floats.PrimFloat Floats.SpecFloat Floats.FloatOps.
From stdpp Require Import base tactics option numbers list.

Set Default Proof Using "Type".
#[local] Set Warnings "-inexact-float".

(** ** The store: Python objects by reference *)

Module Store.

(** A reference is the position of the object in the store. *)
Abbreviation ref := nat (only parsing).
Abbreviation heap := list (only parsing).

Section store.
Context {A : Type}.

(** Allocation puts the new object behind a fresh reference. *)
Definition alloc (h : heap A) (a : A) : heap A * ref := (h ++ [a], length h).

(** In-place modification of the object behind [r]. *)
Definition modify (f : A → A) (r : ref) (h : heap A) : heap A := alter f r h.

(** A loop [for k in idxs: out[k] = val(x, k)] executed on the store:
    every iteration reads the object behind [x] as the store has it at that
    moment and writes one item of the object behind [out]. *)
Definition run_writes {K : Type} (setitem : K → float → A → A)
    (val : A → K → float) (x out : ref) (idxs : list K) (h : heap A) : heap A :=
  foldl (fun h k =>
           match h !! x with
           | Some a => modify (setitem k (val a k)) out h
           | None => h
           end) h idxs.

(** The same loop on a value: the writes applied to a local buffer. *)
Definition apply_writes {K : Type} (setitem : K → float → A → A)
    (val : K → float) (idxs : list K) (o : A) : A :=
  foldl (fun o k => setitem k (val k) o) o idxs.

End store.
End Store.

(** ** Python numbers and exceptions *)

Module Python.

(** The exceptions the modelled cells can raise. *)
Inductive exn : Type := ZeroDivisionError | OverflowError | ValueError | IndexError.

#[global] Instance exn_eq_dec : EqDecision exn.
Proof. solve_decision. Defined.

#[global] Instance result_ret : MRet (sum exn) := fun _ x => inr x.
#[global] Instance result_bind : MBind (sum exn) := fun _ _ f m =>
  match m with
  | inl e => inl e
  | inr x => f x
  end.

Definition raise {A : Type} (e : exn) : exn + A := inl e.

(** An integer as a binary64 value, rounded to nearest even (infinite from
    [2^1024 - 2^970] on). *)
Definition round_int (n : Z) : float := SF2Prim (binary_normalize prec emax n 0 false).

(** Conversion of a Python [int] to [float]: [OverflowError] when the
    integer is too large. *)
Definition float_of_int (n : Z) : exn + float :=
  let f := round_int n in
  if is_infinity f then raise OverflowError else mret f.

(** [a / b] on Python floats. *)
Definition truediv (a b : float) : exn + float :=
  if (b =? 0)%float then raise ZeroDivisionError else mret (a / b)%float.

(** [a / n] with [n] a Python [int]. *)
Definition truediv_int (a : float) (n : Z) : exn + float :=
  b ← float_of_int n; truediv a b.

(** What a call of the C library leaves in [errno]: nothing, a range error,
    or any other error. *)
Inductive errno : Type := ENONE | ERANGE | EOTHER.

(** [_Py_ADJUST_ERANGE1]: an infinite result is a range error also when the
    library did not say so; a range error with a zero result (underflow) is
    none. *)
Definition adjust_erange1 (x : float) (e : errno) : errno :=
  match e with
  | ENONE => if is_infinity x then ERANGE else ENONE
  | ERANGE => if (x =? 0)%float then ENONE else ERANGE
  | EOTHER => EOTHER
  end.

(** [a ** 2] on a Python float, as [float_pow] computes it.  Not a number,
    the infinities, the zeros and plus or minus one are settled without the
    C library; every other square is [pow(|a|, 2.0)] of the C library, which
    is not part of the repository and need not round the square correctly:
    [pow] is a parameter, giving the value and the [errno] of the call.  A
    range error is an [OverflowError], any other error a [ValueError]. *)
Definition pow2 (pow : float → float → float * errno) (a : float) : exn + float :=
  if is_nan a then mret a
  else if is_infinity a then mret (abs a)
  else if (a =? 0)%float then mret 0%float
  else
    let iv := if (a <? 0)%float then (- a)%float else a in
    if (iv =? 1)%float then mret 1%float
    else
      let '(ix, e) := pow iv 2.0%float in
      match adjust_erange1 ix e with
      | ENONE => mret ix
      | ERANGE => raise OverflowError
      | EOTHER => raise ValueError
      end.

(** A 32-bit signed integer: the representative in [-2^31, 2^31). *)
Definition wrap32 (z : Z) : Z := ((z + 2 ^ 31) mod 2 ^ 32 - 2 ^ 31)%Z.

End Python.

(** ** NumPy arrays and the [numba.stencil] decorator *)

Module Numba.
Import Store.

(** [range(lo, hi)] *)
Definition range (lo hi : nat) : list nat := seq lo (hi - lo).

(** *** One-dimensional [float64] arrays *)

(** A one-dimensional array is its buffer, a [list float]; its shape is the
    length. *)

Definition full1 (n : nat) (v : float) : list float := replicate n v.

(** [a[i]] for an index inside the array, the only reads a stencil makes;
    outside, the model reads [0]. *)
Definition getitem1 (a : list float) (i : nat) : float := default 0%float (a !! i).

Definition setitem1 (k : nat) (v : float) (a : list float) : list float := <[k := v]> a.

(** Relative indexing inside a stencil kernel: [x[d]] at the cell [i]. *)
Definition rel1 (a : list float) (i : nat) (d : Z) : float :=
  getitem1 a (Z.to_nat (Z.of_nat i + d)).

(** The indices at which a kernel of neighbourhood [-1 .. 1] is applied. *)
Definition interior1 (n : nat) : list nat := range 1 (n - 1).

(** [numba.stencil] with its defaults (mode [constant], [cval = 0]): the
    result is a new array of the shape of the input, filled with [cval]; the
    kernel is evaluated at every index whose neighbourhood lies in the
    array and its value stored there. *)
Definition stencil1 (kernel : (Z → float) → float) (a : list float) : list float :=
  apply_writes setitem1 (fun i => kernel (rel1 a i)) (interior1 (length a))
    (full1 (length a) 0%float).

(** *** Two-dimensional [float64] arrays *)

Record ndarray2 : Type := mk_ndarray2 {
  shape0 : nat;
  shape1 : nat;
  data : list float   (* row-major, C order *)
}.

Definition well_formed (a : ndarray2) : Prop :=
  length (data a) = shape0 a * shape1 a.

Definition full2 (n0 n1 : nat) (v : float) : ndarray2 :=
  mk_ndarray2 n0 n1 (replicate (n0 * n1) v).

(** [a[i, j]] for indices inside the array. *)
Definition getitem2 (a : ndarray2) (i j : nat) : float :=
  default 0%float (data a !! (i * shape1 a + j)).

Definition setitem2 (k : nat * nat) (v : float) (a : ndarray2) : ndarray2 :=
  mk_ndarray2 (shape0 a) (shape1 a) (<[k.1 * shape1 a + k.2 := v]> (data a)).

(** Relative indexing inside a stencil kernel: [x[di, dj]] at the cell [k]. *)
Definition rel2 (a : ndarray2) (k : nat * nat) (di dj : Z) : float :=
  getitem2 a (Z.to_nat (Z.of_nat k.1 + di)) (Z.to_nat (Z.of_nat k.2 + dj)).

Definition interior2 (n0 n1 : nat) : list (nat * nat) :=
  i ← range 1 (n0 - 1); j ← range 1 (n1 - 1); [(i, j)].

Definition stencil2 (kernel : (Z → Z → float) → float) (a : ndarray2) : ndarray2 :=
  apply_writes setitem2 (fun k => kernel (rel2 a k))
    (interior2 (shape0 a) (shape1 a)) (full2 (shape0 a) (shape1 a) 0%float).

(** *** The notebook's kernels and simulations *)

(** [return x[0] + F * (x[1] - 2.0 * x[0] + x[-1])] *)
Definition central_diff_kernel (x : Z → float) (F : float) : float :=
  (x 0%Z + F * (x 1%Z - 2.0 * x 0%Z + x (-1)%Z))%float.

Definition central_diff_stencil (x : list float) (F : float) : list float :=
  stencil1 (fun x => central_diff_kernel x F) x.

(** [return (x[0, 0] + Fx * (x[-1, 0] - 2.0 * x[0, 0] + x[1, 0]) +
            + Fy * (x[0, -1] - 2.0 * x[0, 0] + x[0, 1]))]
    (the second [+] before [Fy] is a unary plus, the identity on floats). *)
Definition central_diff_kernel2D (x : Z → Z → float) (Fx Fy : float) : float :=
  (x 0%Z 0%Z + Fx * (x (-1)%Z 0%Z - 2.0 * x 0%Z 0%Z + x 1%Z 0%Z)
   + Fy * (x 0%Z (-1)%Z - 2.0 * x 0%Z 0%Z + x 0%Z 1%Z))%float.

Definition central_diff_stencil2D (x : ndarray2) (Fx Fy : float) : ndarray2 :=
  stencil2 (fun x => central_diff_kernel2D x Fx Fy) x.

(** The loop [for i in range(nt): x = stencil(x, ...)] on values: [n] is the
    number of iterations left. *)
Fixpoint repeat_step {A : Type} (f : A → A) (n : nat) (x : A) : A :=
  match n with
  | O => x
  | S n => repeat_step f n (f x)
  end.

(** [range(nt)] has [max nt 0] elements. *)
Definition simulation (x : list float) (F : float) (nt : Z) : list float :=
  repeat_step (fun x => central_diff_stencil x F) (Z.to_nat nt) x.

Definition simulation2D (x : ndarray2) (Fx Fy : float) (nt : Z) : ndarray2 :=
  repeat_step (fun x => central_diff_stencil2D x Fx Fy) (Z.to_nat nt) x.

(** *** The same functions on the store

    The caller passes a reference; the stencil allocates its result, fills
    it item by item while reading the argument, and returns the new
    reference, which the loop binds to the local name [x]. *)

Definition stencil1_run (kernel : (Z → float) → float)
    (h : heap (list float)) (x : ref) : option (heap (list float) * ref) :=
  a ← h !! x;
  let '(h1, out) := alloc h (full1 (length a) 0%float) in
  Some (run_writes setitem1 (fun a i => kernel (rel1 a i)) x out
          (interior1 (length a)) h1, out).

Definition stencil2_run (kernel : (Z → Z → float) → float)
    (h : heap ndarray2) (x : ref) : option (heap ndarray2 * ref) :=
  a ← h !! x;
  let '(h1, out) := alloc h (full2 (shape0 a) (shape1 a) 0%float) in
  Some (run_writes setitem2 (fun a k => kernel (rel2 a k)) x out
          (interior2 (shape0 a) (shape1 a)) h1, out).

Fixpoint repeat_run {A : Type} (f : heap A → ref → option (heap A * ref))
    (n : nat) (h : heap A) (x : ref) : option (heap A * ref) :=
  match n with
  | O => Some (h, x)
  | S n => '(h', x') ← f h x; repeat_run f n h' x'
  end.

Definition simulation_run (h : heap (list float)) (x : ref) (F : float) (nt : Z)
  : option (heap (list float) * ref) :=
  repeat_run (stencil1_run (fun x => central_diff_kernel x F)) (Z.to_nat nt) h x.

Definition simulation2D_run (h : heap ndarray2) (x : ref) (Fx Fy : float) (nt : Z)
  : option (heap ndarray2 * ref) :=
  repeat_run (stencil2_run (fun x => central_diff_kernel2D x Fx Fy)) (Z.to_nat nt) h x.

(** The arrays a run of [n] updates allocates, in order. *)
Fixpoint iterates {A : Type} (f : A → A) (n : nat) (x : A) : list A :=
  match n with
  | O => []
  | S n => f x :: iterates f n (f x)
  end.

(** The reference a run of [n] updates returns. *)
Definition final_ref {A : Type} (h : heap A) (x : ref) (n : nat) : ref :=
  match n with
  | O => x
  | S n => length h + n
  end.

(** The control states of [for i in range(nt): x = f(x)] followed by
    [return x]: [Stepping i h x] before the test of iteration [i], with the
    store and the reference bound to [x]; [Returned h x] once the range is
    exhausted, the only way out of the loop. *)
Inductive loop_state (A : Type) : Type :=
  | Stepping (i : nat) (h : heap A) (x : ref)
  | Returned (h : heap A) (x : ref).
Arguments Stepping {A} i h x.
Arguments Returned {A} h x.

Definition loop_step {A : Type} (f : heap A → ref → option (heap A * ref)) (nt : Z)
    (s : loop_state A) : option (loop_state A) :=
  match s with
  | Stepping i h x =>
      if (Z.of_nat i <? nt)%Z
      then '(h', x') ← f h x; Some (Stepping (S i) h' x')
      else Some (Returned h x)
  | Returned _ _ => None
  end.

(** [n] transitions from a state. *)
Fixpoint loop_steps {A : Type} (f : heap A → ref → option (heap A * ref)) (nt : Z)
    (n : nat) (s : loop_state A) : option (loop_state A) :=
  match n with
  | O => Some s
  | S n => s' ← loop_step f nt s; loop_steps f nt n s'
  end.

End Numba.

(** ** The set-up cells: grid spacing, time step and mesh Fourier numbers *)

Module Setup.

Import Python.

(** The one-dimensional cell: [nx], [nt], [T], [L] and [alpha] are the
    constants it assigns. *)
Record config1D : Type := mk_config1D {
  nx1 : Z; nt1 : Z; T1 : float; L1 : float; alpha1 : float
}.

Record factors1D : Type := mk_factors1D { dx1 : float; dt1 : float; F : float }.

(** [dx = L / nx; dt = T / nt; F = alpha * dt / dx ** 2], with [pow] the
    power function of the C library. *)
Definition setup1D (pow : float → float → float * errno) (c : config1D)
  : exn + factors1D :=
  dx ← truediv_int (L1 c) (nx1 c);
  dt ← truediv_int (T1 c) (nt1 c);
  dx2 ← pow2 pow dx;
  F ← truediv (alpha1 c * dt)%float dx2;
  mret (mk_factors1D dx dt F).

(** The two-dimensional cell.  It divides the [L] of the one-dimensional
    cell, not its own [Lx] and [Ly], which only place the initial
    condition. *)
Record config2D : Type := mk_config2D {
  nx : Z; ny : Z; nt : Z; T : float; L : float; alpha : float
}.

Record factors2D : Type := mk_factors2D {
  dx : float; dy : float; dt : float; Fx : float; Fy : float
}.

(** [dx = L / nx; dy = L / ny; dt = T / nt;
     Fx = alpha * dt / dx ** 2; Fy = alpha * dt / dy ** 2] *)
Definition setup2D (pow : float → float → float * errno) (c : config2D)
  : exn + factors2D :=
  dx ← truediv_int (L c) (nx c);
  dy ← truediv_int (L c) (ny c);
  dt ← truediv_int (T c) (nt c);
  dx2 ← pow2 pow dx;
  Fx ← truediv (alpha c * dt)%float dx2;
  dy2 ← pow2 pow dy;
  Fy ← truediv (alpha c * dt)%float dy2;
  mret (mk_factors2D dx dy dt Fx Fy).

(** [temp_final = simulation2D(temp, Fx, Fy, nt)] after the set-up cell: the
    factors are computed once and passed to every update. *)
Definition solve2D (pow : float → float → float * errno) (c : config2D)
    (temp : Numba.ndarray2) : exn + Numba.ndarray2 :=
  fs ← setup2D pow c;
  mret (Numba.simulation2D temp (Fx fs) (Fy fs) (nt c)).

Definition solve1D (pow : float → float → float * errno) (c : config1D)
    (temp : list float) : exn + list float :=
  fs ← setup1D pow c;
  mret (Numba.simulation temp (F fs) (nt1 c)).


End Setup.

(** ** The multi-GPU Mandelbrot exercise *)

Module CuPy.
Import Python.

(** Two-dimensional arrays are lists of rows; [a[r, c]] is [None] outside. *)
Definition getitem {A : Type} (a : list (list A)) (r c : nat) : option A :=
  row ← a !! r; row !! c.

(** [cp.linspace(start, stop, num)] for scalars: [start + i * step] with
    [step = (stop - start) / (num - 1)], the last element set to [stop]; a
    single element is [start]. *)
Definition linspace (start stop : float) (num : nat) : list float :=
  match num with
  | O => []
  | S O => [start]
  | S div =>
      let step := ((stop - start) / round_int (Z.of_nat div))%float in
      ((fun i => (start + round_int (Z.of_nat i) * step)%float) <$> seq 0 div) ++ [stop]
  end.

(** [X, Y = cp.meshgrid(xs, ys)]: both of shape [(len(ys), len(xs))]. *)
Definition meshgrid (xs ys : list float) : list (list float) * list (list float) :=
  ((fun _ => xs) <$> ys, (fun y => (fun _ => y) <$> xs) <$> ys).

(** The loop of the element-wise kernel,
    [while (x * x + y * y < radius2 && nit < itermax)
       { xtemp = x * x - y * y + cx; y = 2.0 * x * y + cy; x = xtemp; nit += 1; }].
    [fuel] is [itermax - nit], so the test [nit < itermax] is the test that
    fuel is left, and the loop ends after [itermax] rounds at the latest. *)
Fixpoint mandelbrot_loop (fuel : nat) (cx cy x y radius2 : float) (nit : Z) : Z :=
  match fuel with
  | O => nit
  | S fuel =>
      if (x * x + y * y <? radius2)%float
      then mandelbrot_loop fuel cx cy (x * x - y * y + cx)%float
             (2.0 * x * y + cy)%float radius2 (nit + 1)%Z
      else nit
  end.

(** [cx = X, cy = Y; x = cx, y = cy; nit = 0; ...; mandelbrot = nit] *)
Definition mandelbrot (X Y : float) (itermax : Z) (radius2 : float) : Z :=
  mandelbrot_loop (Z.to_nat itermax) X Y X Y radius2 0%Z.

(** The kernel applied element by element to two arrays of one shape. *)
Definition mandelbrot_kernel (X Y : list (list float)) (itermax : Z) (radius2 : float)
  : list (list Z) :=
  zip_with (zip_with (fun x y => mandelbrot x y itermax radius2)) X Y.

(** [a + k] for an [int32] array and a Python [int]. *)
Definition add_scalar (a : list (list Z)) (k : Z) : list (list Z) :=
  (fun row : list Z => (fun v => wrap32 (v + k)) <$> row) <$> a.

(** [cp.hstack]: the blocks side by side; they must have the same number
    of rows.  It looks at the first block before anything else, so an empty
    list is an [IndexError]. *)
Definition hstack {A : Type} (blocks : list (list (list A))) : exn + list (list A) :=
  match blocks with
  | [] => raise IndexError
  | b :: bs =>
      if forallb (fun b' => length b' =? length b) bs
      then mret ((fun r => b' ← blocks; default [] (b' !! r)) <$> seq 0 (length b))
      else raise ValueError
  end.

(** [cp.vstack]: the blocks on top of each other; all rows must have the
    same length, and there must be one block at least (an empty list is a
    [ValueError] of the concatenation). *)
Definition vstack {A : Type} (blocks : list (list (list A))) : exn + list (list A) :=
  match blocks with
  | [] => raise ValueError
  | _ =>
      let rows := mjoin blocks in
      if forallb (fun row => length row =? length (default [] (head rows))) rows
      then mret rows
      else raise ValueError
  end.

(** The first cell: the whole image on one device. *)
Definition mandelbrot_array (rows cols : nat) (xmin xmax ymin ymax : float) : list (list Z) :=
  let '(X, Y) := meshgrid (linspace xmin xmax cols) (linspace ymin ymax rows) in
  mandelbrot_kernel X Y 100 4.0.

(** The edges of the [i]-th of [n] equal parts of the interval
    [lo .. hi], as both split cells compute them:
    [lo_local = lo + (hi - lo) / n * i] and
    [hi_local = lo_local + (hi - lo) / n]. *)
Definition lower_edge (lo hi : float) (n i : nat) : float :=
  (lo + (hi - lo) / round_int (Z.of_nat n) * round_int (Z.of_nat i))%float.

Definition upper_edge (lo hi : float) (n i : nat) : float :=
  (lower_edge lo hi n i + (hi - lo) / round_int (Z.of_nat n))%float.

(** The cell "Split by columns": the kernel output of device [i], on the
    grid of its own [local_cols = cols // 4] columns. *)
Definition column_kernel_output (rows cols total_gpus : nat)
    (xmin xmax ymin ymax : float) (i : nat) : list (list Z) :=
  let local_cols := cols / 4 in
  let xmin_local := lower_edge xmin xmax total_gpus i in
  let xmax_local := upper_edge xmin xmax total_gpus i in
  let '(X, Y) := meshgrid (linspace xmin_local xmax_local local_cols)
                   (linspace ymin ymax rows) in
  mandelbrot_kernel X Y 100 4.0.

(** [mandelbrot_arrays[i] = mandelbrot_kernel(X, Y, 100, 4.0) + i * 10]: the
    offset gives every device a colour of its own. *)
Definition column_block (rows cols total_gpus : nat) (xmin xmax ymin ymax : float)
    (i : nat) : list (list Z) :=
  add_scalar (column_kernel_output rows cols total_gpus xmin xmax ymin ymax i)
    (Z.of_nat i * 10).

(** [mandelbrot_arrays] after the loop, and the assembled [array]. *)
Definition split_by_columns (rows cols total_gpus : nat) (xmin xmax ymin ymax : float)
  : exn + list (list Z) :=
  let mandelbrot_arrays :=
    column_block rows cols total_gpus xmin xmax ymin ymax <$> seq 0 total_gpus in
  hstack mandelbrot_arrays.

(** The cell "Split by rows and columns": what the device of block row [r]
    and block column [c] computes. *)
Definition grid_block (rows cols gpus_x gpus_y : nat) (xmin xmax ymin ymax : float)
    (r c : nat) : list (list Z) :=
  let ymin_local := lower_edge ymin ymax gpus_y r in
  let ymax_local := upper_edge ymin ymax gpus_y r in
  let xmin_local := lower_edge xmin xmax gpus_x c in
  let xmax_local := upper_edge xmin xmax gpus_x c in
  let '(X, Y) := meshgrid (linspace xmin_local xmax_local (cols / gpus_x))
                   (linspace ymin_local ymax_local (rows / gpus_y)) in
  add_scalar (add_scalar (mandelbrot_kernel X Y 100 4.0) (Z.of_nat r * 10))
    (Z.of_nat c * 20).

(** [mandelbrot_arrays] is the literal [[None, None], [None, None]]: storing
    a third block row or column raises [IndexError].  The assembly stacks
    the block rows, each the blocks of that row side by side ([.get()]
    copies a block to the host and changes no value).  The devices the cell
    names are taken to exist. *)
Definition split_by_rows_and_columns (rows cols gpus_x gpus_y : nat)
    (xmin xmax ymin ymax : float) : exn + list (list Z) :=
  if (0 <? gpus_y) && (0 <? gpus_x) && ((2 <? gpus_y) || (2 <? gpus_x))
  then raise IndexError
  else
    block_rows ← mapM (fun j =>
      hstack (grid_block rows cols gpus_x gpus_y xmin xmax ymin ymax j <$> seq 0 gpus_x))
      (seq 0 gpus_y);
    vstack block_rows.

(** *** Shapes *)

(** [n] rows of [w] elements each. *)
Definition has_shape {A : Type} (n w : nat) (a : list (list A)) : Prop :=
  length a = n ∧ Forall (fun row => length row = w) a.

(** *** The cell "Split by rows" *)

(** The kernel output of device [i], on the grid of its own
    [local_rows = rows // 4] rows. *)
Definition row_kernel_output (rows cols total_gpus : nat)
    (xmin xmax ymin ymax : float) (i : nat) : list (list Z) :=
  let local_rows := rows / 4 in
  let ymin_local := lower_edge ymin ymax total_gpus i in
  let ymax_local := upper_edge ymin ymax total_gpus i in
  let '(X, Y) := meshgrid (linspace xmin xmax cols)
                   (linspace ymin_local ymax_local local_rows) in
  mandelbrot_kernel X Y 100 4.0.

(** [mandelbrot_arrays[i] = mandelbrot_kernel(X, Y, 100, 4.0) + i * 10] *)
Definition row_block (rows cols total_gpus : nat) (xmin xmax ymin ymax : float)
    (i : nat) : list (list Z) :=
  add_scalar (row_kernel_output rows cols total_gpus xmin xmax ymin ymax i)
    (Z.of_nat i * 10).

(** [array = cp.vstack(mandelbrot_arrays).get()], once every stream is
    synchronised. *)
Definition split_by_rows (rows cols total_gpus : nat) (xmin xmax ymin ymax : float)
  : exn + list (list Z) :=
  let mandelbrot_arrays :=
    row_block rows cols total_gpus xmin xmax ymin ymax <$> seq 0 total_gpus in
  vstack mandelbrot_arrays.

(** The kernel output of the device of block row [r] and block column [c]
    in the split by rows and columns, before the offsets. *)
Definition grid_kernel_output (rows cols gpus_x gpus_y : nat)
    (xmin xmax ymin ymax : float) (r c : nat) : list (list Z) :=
  let ymin_local := lower_edge ymin ymax gpus_y r in
  let ymax_local := upper_edge ymin ymax gpus_y r in
  let xmin_local := lower_edge xmin xmax gpus_x c in
  let xmax_local := upper_edge xmin xmax gpus_x c in
  let '(X, Y) := meshgrid (linspace xmin_local xmax_local (cols / gpus_x))
                   (linspace ymin_local ymax_local (rows / gpus_y)) in
  mandelbrot_kernel X Y 100 4.0.

End CuPy.

(** ** The impulse scenario: [nx = ny = 8], [alpha = 1], [dx = dy = 1],
    [dt = 0.1], ten iterations *)

Module Scenario.
Import Python Numba Setup.

(** [L / nx = 8.0 / 8 = 1.0] and [T / nt = 1.0 / 10 = 0.1]. *)
Definition config : config2D :=
  {| nx := 8; ny := 8; nt := 10; T := 1.0%float; L := 8.0%float; alpha := 1.0%float |}.

(** [temp = np.zeros((ny + 1, nx + 1))] with a unit impulse at the centre
    point [(ny // 2, nx // 2)]; the border is zero. *)
Definition impulse : ndarray2 := setitem2 (4, 4) 1.0%float (full2 9 9 0%float).

(** What set-up returns for [config]. *)
Definition factors : factors2D :=
  {| dx := 1; dy := 1; dt := 0.1; Fx := 0.1; Fy := 0.1 |}%float.

(** The field after [k] updates. *)
Definition field (k : nat) : ndarray2 :=
  simulation2D impulse (Fx factors) (Fy factors) (Z.of_nat k).

(** The exact value of a finite binary64 number, in units of [2^-1074]
    (the smallest positive one), so that sums are exact integers. *)
Definition units (f : float) : Z :=
  match Prim2SF f with
  | S754_finite s m e => (if s then -1 else 1) * Z.pos m * 2 ^ (e + 1074)
  | _ => 0
  end%Z.

(** Total mass: the exact sum over the interior cells. *)
Definition mass (a : ndarray2) : Z :=
  foldr (fun k s => (units (getitem2 a k.1 k.2) + s)%Z) 0%Z
    (interior2 (shape0 a) (shape1 a)).

(** The same sum accumulated in binary64, row by row. *)
Definition float_mass (a : ndarray2) : float :=
  foldl (fun s k => (s + getitem2 a k.1 k.2)%float) 0%float
    (interior2 (shape0 a) (shape1 a)).

(** [2^-52], the spacing of binary64 numbers at 1, in units. *)
Definition eps : Z := (2 ^ 1022)%Z.

Definition all_cells (a : ndarray2) : list (nat * nat) :=
  i ← seq 0 (shape0 a); j ← seq 0 (shape1 a); [(i, j)].

(** The images of the cell [(i, j)] under the symmetries of the square
    grid about its centre: the two mirror images and the transpose. *)
Definition images (a : ndarray2) (k : nat * nat) : list (nat * nat) :=
  [(shape0 a - 1 - k.1, k.2); (k.1, shape1 a - 1 - k.2); (k.2, k.1)].

(** Symmetric about the centre, each pair of values within [tol] units. *)
Definition symmetric_within (tol : Z) (a : ndarray2) : bool :=
  forallb (fun k =>
    forallb (fun k' =>
      (Z.abs (units (getitem2 a k.1 k.2) - units (getitem2 a k'.1 k'.2)) <=? tol)%Z)
      (images a k))
    (all_cells a).

Definition all_finite (a : ndarray2) : bool := forallb is_finite (data a).

(** The scenario with a time step of [1.0]: [T / nt = 10.0 / 10]. *)
Definition coarse_config : config2D :=
  {| nx := 8; ny := 8; nt := 10; T := 10.0%float; L := 8.0%float; alpha := 1.0%float |}.

(** What set-up returns for it. *)
Definition coarse_factors : factors2D :=
  {| dx := 1; dy := 1; dt := 1; Fx := 1; Fy := 1 |}%float.

(** A C library for the concrete runs: its [pow] is only ever asked for
    squares, rounds them correctly and reports no error.  The scenarios have
    [dx = dy = 1.0], whose square Python settles without the library. *)
Definition rounded_square (x y : float) : float * errno := ((x * x)%float, ENONE).

(** A finite field whose first update overflows: [2.0 * 1e308] is infinite. *)
Definition hot : ndarray2 := setitem2 (1, 1) 1e308%float (full2 3 3 0%float).

End Scenario.

(** * Properties *)

Import Store Python Numba.

(** ** Loops of writes on the store *)

Section store_facts.
Context {A : Type}.

(** When the written object is not the one read, the loop on the store is
    the loop on the value, stored back once. *)
Lemma run_writes_separate {K : Type} (setitem : K → float → A → A)
    (val : A → K → float) (x out : ref) (idxs : list K) (h : heap A) (a o : A) :
  x ≠ out → h !! x = Some a → h !! out = Some o →
  run_writes setitem val x out idxs h
  = <[out := apply_writes setitem (val a) idxs o]> h.
Proof.
  intros Hne. revert h o. induction idxs as [|k idxs IH]; intros h o Hx Ho.
  - simpl. symmetry. by apply list_insert_id.
  - unfold run_writes, apply_writes in *. simpl. rewrite Hx.
    unfold modify.
    rewrite (IH (alter (setitem k (val a k)) out h) (setitem k (val a k) o)).
    + apply list_eq. intros p.
      destruct (decide (p = out)) as [->|Hp].
      * assert (out < length h) by (by eapply lookup_lt_Some).
        rewrite !list_lookup_insert_eq; [done | done |].
        by rewrite length_alter.
      * rewrite !list_lookup_insert_ne by done.
        by rewrite list_lookup_alter_ne.
    + by rewrite list_lookup_alter_ne.
    + by rewrite list_lookup_alter_eq, Ho.
Qed.

End store_facts.

(** *** What the stencils compute, cell by cell *)

Lemma elem_of_range (lo hi i : nat) : i ∈ range lo hi ↔ lo ≤ i ∧ i < hi.
Proof. unfold range. rewrite elem_of_seq. lia. Qed.

Lemma apply_writes_snoc {A K : Type} (setitem : K → float → A → A)
  (val : K → float) (idxs : list K) (k : K) (o : A) :
apply_writes setitem val (idxs ++ [k]) o
= setitem k (val k) (apply_writes setitem val idxs o).
Proof. unfold apply_writes. by rewrite foldl_app. Qed.

Section one_dimension.
Implicit Types (a o : list float) (val : nat → float) (idxs : list nat).

Lemma length_apply_writes1 val idxs o :
  length (apply_writes setitem1 val idxs o) = length o.
Proof.
  induction idxs as [|k idxs IH] using rev_ind; [done|].
  rewrite apply_writes_snoc. unfold setitem1. by rewrite length_insert.
Qed.

Lemma lookup_apply_writes1 val idxs o (i : nat) :
  i < length o →
  apply_writes setitem1 val idxs o !! i
  = if decide (i ∈ idxs) then Some (val i) else o !! i.
Proof.
  intros Hi. induction idxs as [|k idxs IH] using rev_ind.
  - by rewrite decide_False by apply not_elem_of_nil.
  - rewrite apply_writes_snoc.
    destruct (decide (k = i)) as [->|Hk].
    + unfold setitem1 at 1.
      rewrite list_lookup_insert_eq by (by rewrite length_apply_writes1).
      rewrite decide_True; [done|]. apply elem_of_app. right.
      by apply list_elem_of_singleton.
    + unfold setitem1 at 1. rewrite list_lookup_insert_ne by done. rewrite IH.
      destruct (decide (i ∈ idxs)) as [Hin|Hin].
      * rewrite decide_True; [done|]. apply elem_of_app. by left.
      * rewrite decide_False; [done|].
        intros [?|?%list_elem_of_singleton]%elem_of_app; congruence.
Qed.

Lemma elem_of_interior1 (n i : nat) : i ∈ interior1 n ↔ 1 ≤ i ∧ i + 1 < n.
Proof. unfold interior1. rewrite elem_of_range. lia. Qed.

Lemma length_stencil1 kernel a : length (stencil1 kernel a) = length a.
Proof. unfold stencil1, full1. by rewrite length_apply_writes1, length_replicate. Qed.

Lemma getitem1_stencil1 kernel a (i : nat) :
  i < length a →
  getitem1 (stencil1 kernel a) i
  = if decide (1 ≤ i ∧ i + 1 < length a) then kernel (rel1 a i) else 0%float.
Proof.
  intros Hi. unfold getitem1, stencil1, full1.
  rewrite lookup_apply_writes1 by (by rewrite length_replicate).
  destruct (decide (i ∈ interior1 (length a))) as [Hin|Hin];
    rewrite elem_of_interior1 in Hin.
  - by rewrite decide_True.
  - rewrite decide_False by done. by rewrite lookup_replicate_2.
Qed.
End one_dimension.

Section two_dimensions.
Implicit Types (a o : ndarray2) (val : nat * nat → float) (idxs : list (nat * nat)).

Lemma flat_index_lt (n0 n1 i j : nat) : i < n0 → j < n1 → i * n1 + j < n0 * n1.
Proof. nia. Qed.

Lemma flat_index_inj (n1 i j i' j' : nat) :
  j < n1 → j' < n1 → i * n1 + j = i' * n1 + j' → i = i' ∧ j = j'.
Proof.
  intros Hj Hj' Heq.
  assert (i = i') as -> by (destruct (Nat.lt_trichotomy i i') as [?|[?|?]]; nia).
  split; [done | lia].
Qed.

Lemma shape_apply_writes2 val idxs o :
  shape0 (apply_writes setitem2 val idxs o) = shape0 o
  ∧ shape1 (apply_writes setitem2 val idxs o) = shape1 o
  ∧ length (data (apply_writes setitem2 val idxs o)) = length (data o).
Proof.
  induction idxs as [|k idxs IH] using rev_ind; [done|].
  rewrite apply_writes_snoc. unfold setitem2; simpl.
  rewrite length_insert. done.
Qed.

Lemma getitem2_setitem2_eq a (i j : nat) (v : float) :
  i * shape1 a + j < length (data a) → getitem2 (setitem2 (i, j) v a) i j = v.
Proof.
  intros H. unfold getitem2, setitem2; simpl.
  by rewrite list_lookup_insert_eq.
Qed.

Lemma getitem2_setitem2_ne a (k : nat * nat) (i j : nat) (v : float) :
  k.2 < shape1 a → j < shape1 a → k ≠ (i, j) →
  getitem2 (setitem2 k v a) i j = getitem2 a i j.
Proof.
  destruct k as [i' j']; simpl. intros Hj' Hj Hne.
  unfold getitem2, setitem2; simpl.
  rewrite list_lookup_insert_ne; [done|].
  intros Heq. apply flat_index_inj in Heq as [-> ->]; done.
Qed.

Lemma getitem2_apply_writes val idxs o (i j : nat) :
  well_formed o → i < shape0 o → j < shape1 o →
  Forall (fun k => k.2 < shape1 o) idxs →
  getitem2 (apply_writes setitem2 val idxs o) i j
  = if decide ((i, j) ∈ idxs) then val (i, j) else getitem2 o i j.
Proof.
  intros Hwf Hi Hj. induction idxs as [|k idxs IH] using rev_ind; intros Hidx.
  - by rewrite decide_False by apply not_elem_of_nil.
  - apply Forall_app in Hidx as [Hidx Hk%Forall_inv].
    specialize (IH Hidx).
    destruct (shape_apply_writes2 val idxs o) as (_ & Hs1 & Hlen).
    rewrite apply_writes_snoc.
    destruct (decide (k = (i, j))) as [->|Hne].
    + rewrite getitem2_setitem2_eq.
      * rewrite decide_True; [done|]. apply elem_of_app. right.
        by apply list_elem_of_singleton.
      * rewrite Hs1, Hlen, Hwf. by apply flat_index_lt.
    + simpl in Hk. rewrite getitem2_setitem2_ne by (rewrite ?Hs1; done).
      rewrite IH. destruct (decide ((i, j) ∈ idxs)) as [Hin|Hin].
      * rewrite decide_True; [done|]. apply elem_of_app. by left.
      * rewrite decide_False; [done|].
        intros [?|?%list_elem_of_singleton]%elem_of_app; congruence.
Qed.

Lemma elem_of_interior2 (n0 n1 i j : nat) :
  (i, j) ∈ interior2 n0 n1 ↔ (1 ≤ i ∧ i + 1 < n0) ∧ (1 ≤ j ∧ j + 1 < n1).
Proof.
  unfold interior2. rewrite list_elem_of_bind. split.
  - intros (i' & Hj & Hi). apply list_elem_of_bind in Hj as (j' & Hk & Hj).
    apply list_elem_of_singleton in Hk as [= -> ->].
    apply elem_of_range in Hi, Hj. lia.
  - intros [Hi Hj]. exists i. split; [|apply elem_of_range; lia].
    apply list_elem_of_bind. exists j. split; [by apply list_elem_of_singleton|].
    apply elem_of_range. lia.
Qed.

Lemma shape_stencil2 kernel a :
  shape0 (stencil2 kernel a) = shape0 a
  ∧ shape1 (stencil2 kernel a) = shape1 a
  ∧ well_formed (stencil2 kernel a).
Proof.
  unfold stencil2, well_formed.
  destruct (shape_apply_writes2 (fun k => kernel (rel2 a k))
              (interior2 (shape0 a) (shape1 a))
              (full2 (shape0 a) (shape1 a) 0%float)) as (-> & -> & ->).
  simpl. by rewrite length_replicate.
Qed.

Lemma getitem2_stencil2 kernel a (i j : nat) :
  i < shape0 a → j < shape1 a →
  getitem2 (stencil2 kernel a) i j
  = if decide ((1 ≤ i ∧ i + 1 < shape0 a) ∧ (1 ≤ j ∧ j + 1 < shape1 a))
    then kernel (rel2 a (i, j)) else 0%float.
Proof.
  intros Hi Hj. unfold stencil2.
  rewrite getitem2_apply_writes; simpl; try done.
  - destruct (decide ((i, j) ∈ interior2 (shape0 a) (shape1 a))) as [Hin|Hin];
      rewrite elem_of_interior2 in Hin.
    + by rewrite decide_True.
    + rewrite decide_False by done. unfold getitem2, full2; simpl.
      rewrite lookup_replicate_2; [done|]. by apply flat_index_lt.
  - unfold well_formed; simpl. by rewrite length_replicate.
  - apply Forall_forall. intros [i' j'] Hin%elem_of_interior2. simpl. lia.
Qed.
End two_dimensions.

(** *** The runs on the store against the functions on values *)

Lemma length_iterates {A : Type} (f : A → A) (n : nat) (x : A) :
length (iterates f n x) = n.
Proof. revert x. induction n as [|n IH]; intros x; simpl; [done | by rewrite IH]. Qed.

Lemma last_iterates {A : Type} (f : A → A) (n : nat) (x : A) :
iterates f (S n) x !! n = Some (repeat_step f (S n) x).
Proof. revert x. induction n as [|n IH]; intros x; [done|]. apply (IH (f x)). Qed.

Lemma repeat_step_succ {A : Type} (f : A → A) (n : nat) (x : A) :
repeat_step f (S n) x = f (repeat_step f n x).
Proof. revert x. induction n as [|n IH]; intros x; [done|]. apply (IH (f x)). Qed.

Section runs.
Context {A : Type} (f_run : heap A → ref → option (heap A * ref)) (f : A → A).
Hypothesis f_run_spec : ∀ (h : heap A) (x : ref) (a : A),
  h !! x = Some a → f_run h x = Some (h ++ [f a], length h).

Lemma repeat_run_spec (n : nat) (h : heap A) (x : ref) (a : A) :
  h !! x = Some a →
  repeat_run f_run n h x = Some (h ++ iterates f n a, final_ref h x n).
Proof using f_run_spec.
  revert h x a. induction n as [|n IH]; intros h x a Hx; simpl.
  - by rewrite app_nil_r.
  - rewrite (f_run_spec h x a Hx). simpl.
    rewrite (IH (h ++ [f a]) (length h) (f a)).
    + rewrite <- app_assoc. simpl. do 2 f_equal.
      destruct n; simpl; [lia|]. rewrite length_app. simpl. lia.
    + by rewrite lookup_app_r, Nat.sub_diag.
Qed.

(** The array behind the returned reference is the value the loop on
    values computes. *)
Lemma repeat_run_result (n : nat) (h : heap A) (x : ref) (a : A) :
  h !! x = Some a →
  (h ++ iterates f n a) !! final_ref h x n = Some (repeat_step f n a).
Proof.
  intros Hx. destruct n as [|n]; simpl.
  - by apply lookup_app_l_Some.
  - rewrite lookup_app_r by lia.
    replace (length h + n - length h) with n by lia.
    apply (last_iterates f n a).
Qed.
End runs.

Lemma stencil1_run_spec kernel (h : heap (list float)) (x : ref) (a : list float) :
h !! x = Some a → stencil1_run kernel h x = Some (h ++ [stencil1 kernel a], length h).
Proof.
intros Hx. unfold stencil1_run. rewrite Hx. simpl. do 2 f_equal.
rewrite (run_writes_separate _ _ x (length h) _ _ a (full1 (length a) 0%float)).
- rewrite insert_app_r_alt, Nat.sub_diag by done. done.
- apply lookup_lt_Some in Hx. lia.
- by apply lookup_app_l_Some.
- by rewrite lookup_app_r, Nat.sub_diag.
Qed.

Lemma stencil2_run_spec kernel (h : heap ndarray2) (x : ref) (a : ndarray2) :
h !! x = Some a → stencil2_run kernel h x = Some (h ++ [stencil2 kernel a], length h).
Proof.
intros Hx. unfold stencil2_run. rewrite Hx. simpl. do 2 f_equal.
rewrite (run_writes_separate _ _ x (length h) _ _ a
           (full2 (shape0 a) (shape1 a) 0%float)).
- rewrite insert_app_r_alt, Nat.sub_diag by done. done.
- apply lookup_lt_Some in Hx. lia.
- by apply lookup_app_l_Some.
- by rewrite lookup_app_r, Nat.sub_diag.
Qed.

(** ** The simulation loops *)

Lemma repeat_step_invariant {A : Type} (P : A → Prop) (f : A → A) (n : nat) (x : A) :
  P x → (∀ y, P y → P (f y)) → P (repeat_step f n x).
Proof.
  intros Hx Hf. revert x Hx. induction n as [|n IH]; intros x Hx; simpl; auto.
Qed.

Lemma shape_simulation2D (x : ndarray2) (Fx Fy : float) (nt : Z) :
  shape0 (simulation2D x Fx Fy nt) = shape0 x
  ∧ shape1 (simulation2D x Fx Fy nt) = shape1 x.
Proof.
  unfold simulation2D.
  apply (repeat_step_invariant (fun y => shape0 y = shape0 x ∧ shape1 y = shape1 x));
    [done|].
  intros y [H0 H1]. unfold central_diff_stencil2D.
  destruct (shape_stencil2 (fun x => central_diff_kernel2D x Fx Fy) y) as (-> & -> & _).
  done.
Qed.

Lemma length_simulation (x : list float) (F : float) (nt : Z) :
  length (simulation x F nt) = length x.
Proof.
  unfold simulation.
  apply (repeat_step_invariant (fun y => length y = length x)); [done|].
  intros y Hy. unfold central_diff_stencil. by rewrite length_stencil1.
Qed.

Lemma simulation2D_succ (x : ndarray2) (Fx Fy : float) (k : nat) :
  simulation2D x Fx Fy (Z.of_nat (S k))
  = central_diff_stencil2D (simulation2D x Fx Fy (Z.of_nat k)) Fx Fy.
Proof. unfold simulation2D. rewrite !Nat2Z.id. apply repeat_step_succ. Qed.

Lemma simulation_succ (x : list float) (F : float) (k : nat) :
  simulation x F (Z.of_nat (S k)) = central_diff_stencil (simulation x F (Z.of_nat k)) F.
Proof. unfold simulation. rewrite !Nat2Z.id. apply repeat_step_succ. Qed.

(** The transitions of the loop against the run as a whole: from iteration
    [i] with [n] iterations left, [n] updates and the exit. *)
Lemma loop_steps_run {A : Type} (f : heap A → ref → option (heap A * ref)) (nt : Z)
    (n i : nat) (h : heap A) (x : ref) :
  i + n = Z.to_nat nt →
  loop_steps f nt (S n) (Stepping i h x)
  = '(h', r) ← repeat_run f n h x; Some (Returned h' r).
Proof.
  revert i h x. induction n as [|n IH]; intros i h x Hn.
  - simpl. assert ((Z.of_nat i <? nt)%Z = false) as -> by (apply Z.ltb_ge; lia).
    done.
  - cbn [loop_steps loop_step].
    assert ((Z.of_nat i <? nt)%Z = true) as -> by (apply Z.ltb_lt; lia).
    cbn [repeat_run]. destruct (f h x) as [[h' x']|]; [|done]. simpl.
    apply (IH (S i)). lia.
Qed.

(** The five-point kernel in absolute indices. *)
Lemma kernel2D_absolute (a : ndarray2) (Fx Fy : float) (i j : nat) :
  1 ≤ i → 1 ≤ j →
  central_diff_kernel2D (rel2 a (i, j)) Fx Fy
  = (getitem2 a i j
     + Fx * (getitem2 a (i - 1) j - 2.0 * getitem2 a i j + getitem2 a (i + 1) j)
     + Fy * (getitem2 a i (j - 1) - 2.0 * getitem2 a i j + getitem2 a i (j + 1)))%float.
Proof.
  intros Hi Hj. unfold central_diff_kernel2D, rel2. simpl.
  rewrite !Z.add_0_r, !Nat2Z.id.
  replace (Z.to_nat (Z.of_nat i + -1)) with (i - 1) by lia.
  replace (Z.to_nat (Z.of_nat i + 1)) with (i + 1) by lia.
  replace (Z.to_nat (Z.of_nat j + -1)) with (j - 1) by lia.
  replace (Z.to_nat (Z.of_nat j + 1)) with (j + 1) by lia.
  done.
Qed.




(** ** The stencil update and its boundary *)





(** ** The iteration budget, the store and non-finite values *)

(** C6. With an iteration budget of zero the solver returns the initial
    field unchanged: the result is the input value, the run on the store
    returns the very reference it was given and the store as it was (no
    array is allocated, so no stencil update took place), and the first
    transition of the loop leads straight to its final state, the range
    being exhausted at once. *)
Theorem zero_iterations (h2 : heap ndarray2) (h1 : heap (list float)) (x : ref)
    (a2 : ndarray2) (a1 : list float) (Fx Fy F : float) :
  simulation2D a2 Fx Fy 0 = a2
  ∧ simulation a1 F 0 = a1
  ∧ simulation2D_run h2 x Fx Fy 0 = Some (h2, x)
  ∧ simulation_run h1 x F 0 = Some (h1, x)
  ∧ loop_step (stencil2_run (fun x => central_diff_kernel2D x Fx Fy)) 0 (Stepping 0 h2 x)
    = Some (Returned h2 x)
  ∧ loop_step (stencil1_run (fun x => central_diff_kernel x F)) 0 (Stepping 0 h1 x)
    = Some (Returned h1 x).
Proof. repeat split. Qed.

(** The run of a simulation on the store: what it returns and what it
    leaves behind. *)
Lemma simulation2D_run_spec (h : heap ndarray2) (x : ref) (a : ndarray2)
    (Fx Fy : float) (nt : Z) :
  h !! x = Some a →
  let f := fun x => central_diff_stencil2D x Fx Fy in
  simulation2D_run h x Fx Fy nt
  = Some (h ++ iterates f (Z.to_nat nt) a, final_ref h x (Z.to_nat nt))
  ∧ (h ++ iterates f (Z.to_nat nt) a) !! final_ref h x (Z.to_nat nt)
    = Some (simulation2D a Fx Fy nt).
Proof.
  intros Hx f. unfold simulation2D_run, simulation2D. split.
  - apply (repeat_run_spec _ f); [|done].
    intros h' x' a' Hx'. by apply stencil2_run_spec.
  - by apply repeat_run_result.
Qed.

Lemma simulation_run_spec (h : heap (list float)) (x : ref) (a : list float)
    (F : float) (nt : Z) :
  h !! x = Some a →
  let f := fun x => central_diff_stencil x F in
  simulation_run h x F nt
  = Some (h ++ iterates f (Z.to_nat nt) a, final_ref h x (Z.to_nat nt))
  ∧ (h ++ iterates f (Z.to_nat nt) a) !! final_ref h x (Z.to_nat nt)
    = Some (simulation a F nt).
Proof.
  intros Hx f. unfold simulation_run, simulation. split.
  - apply (repeat_run_spec _ f); [|done].
    intros h' x' a' Hx'. by apply stencil1_run_spec.
  - by apply repeat_run_result.
Qed.

(** C10. The simulations never mutate their input: for every store, every
    array in it and every iteration count, the call returns, and afterwards
    the caller's array, like every other array that existed before the
    call, holds exactly the values it held before; the result lives in an
    array of its own unless no iteration ran. *)
Theorem input_not_mutated (h2 : heap ndarray2) (h1 : heap (list float)) (x2 x1 : ref)
    (a2 : ndarray2) (a1 : list float) (Fx Fy F : float) (nt : Z) :
  h2 !! x2 = Some a2 → h1 !! x1 = Some a1 →
  (∃ h' r, simulation2D_run h2 x2 Fx Fy nt = Some (h', r)
           ∧ h' !! x2 = Some a2
           ∧ (∀ p b, h2 !! p = Some b → h' !! p = Some b)
           ∧ h' !! r = Some (simulation2D a2 Fx Fy nt)
           ∧ ((1 ≤ nt)%Z → r ≠ x2))
  ∧ (∃ h' r, simulation_run h1 x1 F nt = Some (h', r)
             ∧ h' !! x1 = Some a1
             ∧ (∀ p b, h1 !! p = Some b → h' !! p = Some b)
             ∧ h' !! r = Some (simulation a1 F nt)
             ∧ ((1 ≤ nt)%Z → r ≠ x1)).
Proof.
  intros H2 H1. split.
  - destruct (simulation2D_run_spec h2 x2 a2 Fx Fy nt H2) as [Hrun Hres].
    eexists _, _. split; [exact Hrun|].
    split; [by apply lookup_app_l_Some|].
    split; [intros p b Hp; by apply lookup_app_l_Some|].
    split; [exact Hres|].
    intros Hnt. apply lookup_lt_Some in H2.
    destruct (Z.to_nat nt) eqn:E; [lia|]. simpl. lia.
  - destruct (simulation_run_spec h1 x1 a1 F nt H1) as [Hrun Hres].
    eexists _, _. split; [exact Hrun|].
    split; [by apply lookup_app_l_Some|].
    split; [intros p b Hp; by apply lookup_app_l_Some|].
    split; [exact Hres|].
    intros Hnt. apply lookup_lt_Some in H1.
    destruct (Z.to_nat nt) eqn:E; [lia|]. simpl. lia.
Qed.

Lemma input_not_mutated_witness :
  (∃ h' r, simulation2D_run [Scenario.impulse] 0 0.1%float 0.1%float 10 = Some (h', r)
           ∧ h' !! 0 = Some Scenario.impulse)
  ∧ (∃ h' r, simulation_run [[0; 1; 0]%float] 0 0.25%float 3 = Some (h', r)
             ∧ h' !! 0 = Some [0; 1; 0]%float).
Proof.
  destruct (input_not_mutated [Scenario.impulse] [[0; 1; 0]%float] 0 0
              Scenario.impulse [0; 1; 0]%float 0.1%float 0.1%float 0.25%float 10
              eq_refl eq_refl) as [(h2 & r2 & Hrun2 & Hx2 & _) _].
  destruct (input_not_mutated [Scenario.impulse] [[0; 1; 0]%float] 0 0
              Scenario.impulse [0; 1; 0]%float 0.1%float 0.1%float 0.25%float 3
              eq_refl eq_refl) as [_ (h1 & r1 & Hrun1 & Hx1 & _)].
  split; eauto.
Defined.

(** C7, as the code has it.  The solver has no divergence check: for every
    field, finite or not, the loop raises nothing, performs all [nt]
    updates (one array allocated per update) and leaves by the exhaustion
    of its range, its only exit; the field it returns is the [nt]-th
    iterate, non-finite values included. *)
Theorem no_divergence_check (h : heap ndarray2) (x : ref) (a : ndarray2)
    (Fx Fy : float) (nt : Z) :
  h !! x = Some a →
  ∃ h' r,
    loop_steps (stencil2_run (fun x => central_diff_kernel2D x Fx Fy)) nt
      (S (Z.to_nat nt)) (Stepping 0 h x) = Some (Returned h' r)
    ∧ length h' = length h + Z.to_nat nt
    ∧ h' !! r = Some (simulation2D a Fx Fy nt).
Proof.
  intros Hx.
  destruct (simulation2D_run_spec h x a Fx Fy nt Hx) as [Hrun Hres].
  eexists _, _. split; [|split; [|exact Hres]].
  - rewrite loop_steps_run by lia.
    unfold simulation2D_run in Hrun. rewrite Hrun. done.
  - by rewrite length_app, length_iterates.
Qed.

Lemma no_divergence_check_witness :
  ∃ h' r,
    loop_steps (stencil2_run (fun x => central_diff_kernel2D x 0.1%float 0.1%float)) 1
      2 (Stepping 0 [Scenario.hot] 0) = Some (Returned h' r)
    ∧ length h' = 2
    ∧ h' !! r = Some (simulation2D Scenario.hot 0.1%float 0.1%float 1).
Proof.
  exact (no_divergence_check [Scenario.hot] 0 Scenario.hot 0.1%float 0.1%float 1 eq_refl).
Defined.

(** C7, as stated, fails: the field [hot] is finite, its first update holds
    a non-finite value, and the run with a budget of one iteration raises
    nothing and returns that updated field, which is not the last finite
    one. *)
Lemma divergence_not_detected :
  Scenario.all_finite Scenario.hot = true
  ∧ Scenario.all_finite (central_diff_stencil2D Scenario.hot 0.1%float 0.1%float) = false
  ∧ getitem2 (central_diff_stencil2D Scenario.hot 0.1%float 0.1%float) 1 1 = neg_infinity
  ∧ simulation2D_run [Scenario.hot] 0 0.1%float 0.1%float 1
    = Some ([Scenario.hot; central_diff_stencil2D Scenario.hot 0.1%float 0.1%float], 1)
  ∧ simulation2D Scenario.hot 0.1%float 0.1%float 1 ≠ Scenario.hot.
Proof.
  split; [vm_compute; reflexivity|].
  split; [vm_compute; reflexivity|].
  split; [vm_compute; reflexivity|].
  split; [vm_compute; reflexivity|].
  intros H. apply (f_equal (fun a => is_finite (getitem2 a 1 1))) in H.
  vm_compute in H. discriminate H.
Qed.

(** ** The set-up and the stability factor *)








(** With [dx = dy = 1.0] the squares are settled without the C library:
    the coarse configuration is accepted whatever the library. *)
Lemma coarse_setup_any_library (pow : float → float → float * errno) :
  Setup.setup2D pow Scenario.coarse_config = inr Scenario.coarse_factors.
Proof. reflexivity. Qed.


(** ** The impulse scenario *)

(** C8, as the code has it.  In the scenario (nine by nine grid points for
    [nx = ny = 8], unit impulse at the centre point, zero border,
    [Fx = Fy = 0.1] as set-up computes them) the ten updates are carried out
    in binary64, so mass and symmetry hold up to rounding: after each update
    the exact total mass is at most the mass before plus [2^-52], and the
    field is symmetric about the centre within [2^-52] in every cell. *)
Theorem impulse_mass_and_symmetry (pow : float → float → float * errno) :
  Setup.setup2D pow Scenario.config = inr Scenario.factors
  ∧ Forall (fun k =>
      (Scenario.mass (Scenario.field (S k))
       ≤ Scenario.mass (Scenario.field k) + Scenario.eps)%Z
      ∧ Scenario.symmetric_within Scenario.eps (Scenario.field (S k)) = true)
      (seq 0 10).
Proof.
  split; [reflexivity|].
  cbn [seq].
  repeat (apply Forall_cons_2;
          [split; [apply Z.leb_le; vm_compute; reflexivity | vm_compute; reflexivity]|]).
  apply Forall_nil_2.
Qed.

(** C8, as stated, fails: the exact total mass after the first update is
    larger than before it ([1 + 2^-53] against [1]), the mass accumulated in
    binary64 grows at the second update, and the field after the third
    update is not exactly symmetric. *)
Lemma impulse_mass_grows :
  (Scenario.mass (Scenario.field 0) < Scenario.mass (Scenario.field 1))%Z
  ∧ (Scenario.float_mass (Scenario.field 1) <? Scenario.float_mass (Scenario.field 2))%float
    = true
  ∧ Scenario.symmetric_within 0 (Scenario.field 3) = false.
Proof.
  split; [apply Z.ltb_lt; vm_compute; reflexivity|].
  split; vm_compute; reflexivity.
Qed.

(** ** Blocks side by side and on top of each other *)

Import CuPy.

Section uniform_bind.
Context {A B : Type} (f : A → list B) (w : nat).

Lemma length_bind_uniform (l : list A) :
  Forall (fun a => length (f a) = w) l → length (l ≫= f) = length l * w.
Proof.
  induction 1 as [|a l Ha _ IH]; [done|].
  rewrite bind_cons, length_app, Ha, IH. simpl. lia.
Qed.

Lemma lookup_bind_uniform (l : list A) (i : nat) (a : A) (lc : nat) :
  Forall (fun a => length (f a) = w) l → l !! i = Some a → lc < w →
  (l ≫= f) !! (i * w + lc) = f a !! lc.
Proof.
  intros Hl. revert i. induction Hl as [|a' l Ha _ IH]; intros i Hi Hlc; [done|].
  rewrite bind_cons. destruct i as [|i]; simpl in Hi.
  - injection Hi as ->. rewrite lookup_app_l by lia. done.
  - rewrite lookup_app_r by lia.
    replace (S i * w + lc - length (f a')) with (i * w + lc) by lia.
    by apply IH.
Qed.
End uniform_bind.

Lemma forallb_Forall_true {A : Type} (p : A → bool) (l : list A) :
  Forall (fun x => p x = true) l → forallb p l = true.
Proof. induction 1 as [|x l Hx _ IH]; [done|]. simpl. by rewrite Hx, IH. Qed.

Lemma mapM_inr {A B : Type} (f : A → exn + B) (g : A → B) (l : list A) :
  (∀ x, x ∈ l → f x = inr (g x)) → mapM f l = inr (g <$> l).
Proof.
  induction l as [|x l IH]; intros Hf; [done|].
  cbn. rewrite (Hf x) by apply list_elem_of_here. cbn.
  rewrite IH; [done|]. intros y Hy. apply Hf. by apply list_elem_of_further.
Qed.

Lemma has_shape_row {A : Type} (n w : nat) (a : list (list A)) (r : nat) :
  has_shape n w a → r < n → ∃ row, a !! r = Some row ∧ length row = w.
Proof.
  intros [Hn Hw] Hr.
  destruct (lookup_lt_is_Some_2 a r) as [row Hrow]; [lia|].
  exists row. split; [done|].
  by apply (proj1 (Forall_lookup _ _) Hw r).
Qed.

Lemma getitem_outside {A : Type} (n w : nat) (a : list (list A)) (r c : nat) :
  has_shape n w a → n ≤ r → getitem a r c = None.
Proof.
  intros [Hn _] Hr. unfold getitem. rewrite lookup_ge_None_2 by lia. done.
Qed.

(** [hstack] of blocks of one shape: the shape of the result, and where
    every element of every block goes. *)
Lemma hstack_spec {A : Type} (blocks : list (list (list A))) (n w : nat) :
  blocks ≠ [] → Forall (has_shape n w) blocks →
  ∃ M, hstack blocks = inr M
       ∧ has_shape n (length blocks * w) M
       ∧ ∀ i b r lc, blocks !! i = Some b → lc < w →
                     getitem M r (i * w + lc) = getitem b r lc.
Proof.
  intros Hne Hshape.
  destruct blocks as [|b0 bs]; [done|].
  assert (length b0 = n) as Hb0 by (by apply Forall_cons_1 in Hshape as [[? _] _]).
  set (blocks := b0 :: bs) in *.
  set (row_of := fun (r : nat) (b' : list (list A)) => default [] (b' !! r)).
  assert (∀ r, r < n → Forall (fun b' => length (row_of r b') = w) blocks) as Hrows.
  { intros r Hr. eapply Forall_impl; [exact Hshape|].
    intros b' Hb'. destruct (has_shape_row n w b' r Hb' Hr) as (row & Hrow & Hlen).
    unfold row_of. by rewrite Hrow. }
  exists ((fun r => blocks ≫= row_of r) <$> seq 0 n).
  split; [|split; [split|]].
  - unfold hstack; fold blocks. cbn.
    rewrite forallb_Forall_true.
    + by rewrite Hb0.
    + apply Forall_cons_1 in Hshape as [_ Hbs].
      eapply Forall_impl; [exact Hbs|]. intros b' [Hlen _]. simpl.
      apply Nat.eqb_eq. lia.
  - by rewrite length_fmap, length_seq.
  - apply Forall_fmap, Forall_forall. intros r Hr%elem_of_seq.
    change (length (blocks ≫= row_of r) = length blocks * w).
    apply length_bind_uniform, Hrows. lia.
  - intros i b r lc Hb Hlc.
    destruct (decide (r < n)) as [Hr|Hr].
    + unfold getitem at 1.
      rewrite list_lookup_fmap, lookup_seq_lt by done.
      change ((blocks ≫= row_of r) !! (i * w + lc) = getitem b r lc).
      rewrite (lookup_bind_uniform (row_of r) w blocks i b lc (Hrows r Hr) Hb Hlc).
      unfold row_of, getitem. by destruct (b !! r).
    + assert (has_shape n w b) as Hbs.
      { by apply (proj1 (Forall_lookup _ _) Hshape i). }
      rewrite (getitem_outside n w b) by (done || lia).
      unfold getitem. rewrite lookup_ge_None_2; [done|].
      rewrite length_fmap, length_seq. lia.
Qed.

(** [vstack] of blocks of one shape. *)
Lemma vstack_spec {A : Type} (blocks : list (list (list A))) (n w : nat) :
  blocks ≠ [] → Forall (has_shape n w) blocks →
  ∃ M, vstack blocks = inr M
       ∧ has_shape (length blocks * n) w M
       ∧ ∀ j b lr c, blocks !! j = Some b → lr < n →
                     getitem M (j * n + lr) c = getitem b lr c.
Proof.
  intros Hne Hshape.
  assert (Forall (fun b : list (list A) => length (id b) = n) blocks) as Hlen.
  { eapply Forall_impl; [exact Hshape|]. by intros b [? _]. }
  assert (Forall (fun row : list A => length row = w) (mjoin blocks)) as Hw.
  { clear Hne Hlen. induction Hshape as [|b bs [_ Hb] _ IH]; [done|].
    simpl. by apply Forall_app. }
  exists (mjoin blocks). split; [|split; [split|]].
  - unfold vstack. destruct blocks as [|b0 bs]; [done|].
    destruct (mjoin (b0 :: bs)) as [|row0 rest] eqn:E; [done|].
    rewrite forallb_Forall_true; [done|].
    pose proof Hw as [Hrow0 _]%Forall_cons_1.
    eapply Forall_impl; [exact Hw|]. intros row Hrow. simpl.
    apply Nat.eqb_eq. by rewrite Hrow, Hrow0.
  - rewrite list_join_bind. by apply length_bind_uniform.
  - exact Hw.
  - intros j b lr c Hb Hlr. unfold getitem.
    rewrite list_join_bind.
    by rewrite (lookup_bind_uniform id n blocks j b lr Hlen Hb Hlr).
Qed.

(** ** The blocks the devices compute *)

Lemma length_linspace (start stop : float) (num : nat) :
  length (linspace start stop num) = num.
Proof.
  destruct num as [|[|num]]; [done..|].
  unfold linspace. rewrite length_app, length_fmap, length_seq. simpl. lia.
Qed.

Lemma zip_with_const_r {A B C : Type} (f : A → B → C) (xs : list A) (y : B) :
  zip_with f xs ((fun _ => y) <$> xs) = (fun x => f x y) <$> xs.
Proof. induction xs as [|x xs IH]; [done|]. csimpl. by rewrite IH. Qed.

(** The kernel on a mesh grid: one value per pair of coordinates. *)
Lemma kernel_on_meshgrid (xs ys : list float) (itermax : Z) (radius2 : float) :
  mandelbrot_kernel (meshgrid xs ys).1 (meshgrid xs ys).2 itermax radius2
  = (fun y => (fun x => mandelbrot x y itermax radius2) <$> xs) <$> ys.
Proof.
  unfold mandelbrot_kernel, meshgrid. cbn [fst snd].
  induction ys as [|y ys IH]; [done|].
  rewrite !fmap_cons. cbn [zip_with].
  by rewrite zip_with_const_r, IH.
Qed.

Lemma has_shape_fmap_fmap {A B C : Type} (g : B → A → C) (xs : list A) (ys : list B) :
  has_shape (length ys) (length xs) ((fun y => g y <$> xs) <$> ys).
Proof.
  split; [by rewrite length_fmap|].
  apply Forall_fmap, Forall_forall. intros y _. simpl. by rewrite length_fmap.
Qed.

Lemma getitem_fmap_fmap {A B C : Type} (g : B → A → C) (xs : list A) (ys : list B)
    (r c : nat) (x : A) (y : B) :
  xs !! c = Some x → ys !! r = Some y →
  getitem ((fun y => g y <$> xs) <$> ys) r c = Some (g y x).
Proof.
  intros Hx Hy. unfold getitem.
  rewrite list_lookup_fmap, Hy. simpl. by rewrite list_lookup_fmap, Hx.
Qed.

Lemma has_shape_add_scalar (n w : nat) (a : list (list Z)) (k : Z) :
  has_shape n w a → has_shape n w (add_scalar a k).
Proof.
  intros [Hn Hw]. split; [by unfold add_scalar; rewrite length_fmap|].
  unfold add_scalar. apply Forall_fmap.
  eapply Forall_impl; [exact Hw|]. intros row Hrow. simpl. by rewrite length_fmap.
Qed.

Lemma getitem_add_scalar (a : list (list Z)) (k : Z) (r c : nat) :
  getitem (add_scalar a k) r c = (fun v => wrap32 (v + k)) <$> getitem a r c.
Proof.
  unfold getitem, add_scalar. rewrite list_lookup_fmap.
  destruct (a !! r) as [row|]; [|done]. simpl. by rewrite list_lookup_fmap.
Qed.

Lemma has_shape_kernel_output (xs ys : list float) (itermax : Z) (radius2 : float) :
  has_shape (length ys) (length xs)
    (mandelbrot_kernel (meshgrid xs ys).1 (meshgrid xs ys).2 itermax radius2).
Proof. rewrite kernel_on_meshgrid. apply has_shape_fmap_fmap. Qed.

Lemma has_shape_column_kernel_output (rows cols total_gpus : nat)
    (xmin xmax ymin ymax : float) (i : nat) :
  has_shape rows (cols / 4)
    (column_kernel_output rows cols total_gpus xmin xmax ymin ymax i).
Proof.
  unfold column_kernel_output.
  pose proof (has_shape_kernel_output
                (linspace (lower_edge xmin xmax total_gpus i)
                   (upper_edge xmin xmax total_gpus i) (cols / 4))
                (linspace ymin ymax rows) 100 4.0%float) as H.
  by rewrite !length_linspace in H.
Qed.

Lemma has_shape_column_block (rows cols total_gpus : nat)
    (xmin xmax ymin ymax : float) (i : nat) :
  has_shape rows (cols / 4) (column_block rows cols total_gpus xmin xmax ymin ymax i).
Proof. apply has_shape_add_scalar, has_shape_column_kernel_output. Qed.

Lemma has_shape_grid_block (rows cols gpus_x gpus_y : nat)
    (xmin xmax ymin ymax : float) (r c : nat) :
  has_shape (rows / gpus_y) (cols / gpus_x)
    (grid_block rows cols gpus_x gpus_y xmin xmax ymin ymax r c).
Proof.
  unfold grid_block. do 2 apply has_shape_add_scalar.
  pose proof (has_shape_kernel_output
                (linspace (lower_edge xmin xmax gpus_x c)
                   (upper_edge xmin xmax gpus_x c) (cols / gpus_x))
                (linspace (lower_edge ymin ymax gpus_y r)
                   (upper_edge ymin ymax gpus_y r) (rows / gpus_y))
                100 4.0%float) as H.
  by rewrite !length_linspace in H.
Qed.

(** The column split assembles: the shape of the image and the place of
    every element of every block. *)
Lemma split_by_columns_spec (rows cols total_gpus : nat) (xmin xmax ymin ymax : float) :
  0 < total_gpus →
  ∃ M, split_by_columns rows cols total_gpus xmin xmax ymin ymax = inr M
       ∧ has_shape rows (total_gpus * (cols / 4)) M
       ∧ ∀ i r lc, i < total_gpus → lc < cols / 4 →
           getitem M r (i * (cols / 4) + lc)
           = getitem (column_block rows cols total_gpus xmin xmax ymin ymax i) r lc.
Proof.
  intros HP. unfold split_by_columns.
  set (blocks := column_block rows cols total_gpus xmin xmax ymin ymax <$> seq 0 total_gpus).
  destruct (hstack_spec blocks rows (cols / 4)) as (M & HM & Hshape & Hget).
  - unfold blocks. destruct total_gpus; [lia|done].
  - unfold blocks. apply Forall_fmap, Forall_forall. intros i _.
    apply has_shape_column_block.
  - exists M. split; [done|]. split.
    + unfold blocks in Hshape. by rewrite length_fmap, length_seq in Hshape.
    + intros i r lc Hi Hlc. apply Hget; [|done].
      unfold blocks. by rewrite list_lookup_fmap, lookup_seq_lt.
Qed.

(** The split by rows and columns assembles, for one or two block rows and
    block columns. *)
Lemma split_by_rows_and_columns_spec (rows cols gpus_x gpus_y : nat)
    (xmin xmax ymin ymax : float) :
  1 ≤ gpus_x ≤ 2 → 1 ≤ gpus_y ≤ 2 →
  ∃ M, split_by_rows_and_columns rows cols gpus_x gpus_y xmin xmax ymin ymax = inr M
       ∧ has_shape (gpus_y * (rows / gpus_y)) (gpus_x * (cols / gpus_x)) M
       ∧ ∀ br bc lr lc, br < gpus_y → bc < gpus_x →
           lr < rows / gpus_y → lc < cols / gpus_x →
           getitem M (br * (rows / gpus_y) + lr) (bc * (cols / gpus_x) + lc)
           = getitem (grid_block rows cols gpus_x gpus_y xmin xmax ymin ymax br bc) lr lc.
Proof.
  intros Hx Hy. unfold split_by_rows_and_columns.
  assert ((0 <? gpus_y) && (0 <? gpus_x) && ((2 <? gpus_y) || (2 <? gpus_x)) = false) as ->.
  { assert ((2 <? gpus_y) = false) as -> by (apply Nat.ltb_ge; lia).
    assert ((2 <? gpus_x) = false) as -> by (apply Nat.ltb_ge; lia).
    by rewrite andb_false_r. }
  set (blocks := fun j => grid_block rows cols gpus_x gpus_y xmin xmax ymin ymax j
                            <$> seq 0 gpus_x).
  assert (∀ j, ∃ M, hstack (blocks j) = inr M
                    ∧ has_shape (rows / gpus_y) (gpus_x * (cols / gpus_x)) M
                    ∧ ∀ bc r lc, bc < gpus_x → lc < cols / gpus_x →
                        getitem M r (bc * (cols / gpus_x) + lc)
                        = getitem (grid_block rows cols gpus_x gpus_y
                                     xmin xmax ymin ymax j bc) r lc) as Hrow.
  { intros j.
    destruct (hstack_spec (blocks j) (rows / gpus_y) (cols / gpus_x))
      as (M & HM & Hshape & Hget).
    - unfold blocks. destruct gpus_x; [lia|done].
    - unfold blocks. apply Forall_fmap, Forall_forall. intros bc _.
      apply has_shape_grid_block.
    - exists M. split; [done|]. split.
      + unfold blocks in Hshape. by rewrite length_fmap, length_seq in Hshape.
      + intros bc r lc Hbc Hlc. apply Hget; [|done].
        unfold blocks. by rewrite list_lookup_fmap, lookup_seq_lt. }
  set (block_row := fun j => match hstack (blocks j) with inr M => M | inl _ => [] end).
  assert (∀ j, hstack (blocks j) = inr (block_row j)) as Hblock_row.
  { intros j. unfold block_row. by destruct (Hrow j) as (M & -> & _). }
  rewrite (mapM_inr _ block_row) by (intros j _; apply Hblock_row). cbn.
  destruct (vstack_spec (block_row <$> seq 0 gpus_y) (rows / gpus_y)
              (gpus_x * (cols / gpus_x))) as (M & HM & Hshape & Hget).
  - destruct gpus_y; [lia|done].
  - apply Forall_fmap, Forall_forall. intros j _. simpl.
    destruct (Hrow j) as (M & HM & Hshape & _).
    rewrite Hblock_row in HM. by injection HM as <-.
  - exists M. split; [done|]. split.
    + by rewrite length_fmap, length_seq in Hshape.
    + intros br bc lr lc Hbr Hbc Hlr Hlc.
      rewrite (Hget br (block_row br)); [|by rewrite list_lookup_fmap, lookup_seq_lt|done].
      destruct (Hrow br) as (M' & HM' & _ & Hget').
      rewrite Hblock_row in HM'. injection HM' as <-. by apply Hget'.
Qed.

(** ** The decomposition *)

Lemma block_index (w n c : nat) : c < n * w → ∃ i, i < n ∧ i * w ≤ c < (i + 1) * w.
Proof.
  intros Hc. assert (0 < w) as Hw by nia.
  exists (c / w). split.
  - apply Nat.Div0.div_lt_upper_bound. lia.
  - pose proof (Nat.div_mod_eq c w) as Hdm.
    pose proof (Nat.mod_upper_bound c w) as Hmod. nia.
Qed.

Lemma getitem_inside {A : Type} (n w : nat) (a : list (list A)) (r c : nat) (v : A) :
  has_shape n w a → getitem a r c = Some v → r < n ∧ c < w.
Proof.
  intros [Hn Hw]. unfold getitem.
  destruct (a !! r) as [row|] eqn:Hrow; [|done]. simpl. intros Hc.
  split.
  - rewrite <- Hn. by eapply lookup_lt_Some.
  - rewrite <- (proj1 (Forall_lookup _ _) Hw r row Hrow). by eapply lookup_lt_Some.
Qed.

(** C4, as the code has it.  The split cells do not hand the cells of the
    global grid out to the devices: every device samples its own closed
    interval, both ends included, at equally spaced abscissae of its own.
    With the values of the notebook (5000 columns, four devices on
    [-2 .. 1]) the last column of a device and the first column of the next
    are computed at the same abscissa, [-1.25], [-0.5] and [0.25]: devices
    0 and 1 both compute the count of the point [(-1.25, 0)], the image
    shows it twice, in columns 1249 and 1250, and no column of the
    single-device grid lies at [-1.25].  The split by rows and columns
    shares its edges in the same way, [-0.5] between the block columns and
    [0] between the block rows, so that its four devices all compute the
    count of [(-0.5, 0)].  And the width of a block is the literal
    [cols // 4] whatever the number of devices: with two devices the image
    has [2 * (cols // 4)] columns, four of the eight columns that two
    devices divide evenly. *)
Theorem column_split_is_no_exact_cover :
  (fun i =>
     (last (linspace (lower_edge (-2) 1 4 i) (upper_edge (-2) 1 4 i) (5000 / 4)),
      head (linspace (lower_edge (-2) 1 4 (S i)) (upper_edge (-2) 1 4 (S i)) (5000 / 4))))
    <$> [0; 1; 2]
  = [(Some (-1.25), Some (-1.25)); (Some (-0.5), Some (-0.5)); (Some 0.25, Some 0.25)]%float
  ∧ getitem (column_kernel_output 3 5000 4 (-2) 1 (-1) 1 0) 1 1249
    = Some (mandelbrot (-1.25) 0 100 4.0)
  ∧ getitem (column_kernel_output 3 5000 4 (-2) 1 (-1) 1 1) 1 0
    = Some (mandelbrot (-1.25) 0 100 4.0)
  ∧ (∃ M, split_by_columns 3 5000 4 (-2) 1 (-1) 1 = inr M
          ∧ getitem M 1 1249 = Some 100%Z ∧ getitem M 1 1250 = Some 110%Z)
  ∧ forallb (fun x => negb (x =? -1.25)%float) (linspace (-2) 1 5000) = true
  ∧ (last (linspace (lower_edge (-2) 1 2 0) (upper_edge (-2) 1 2 0) (5000 / 2)),
     head (linspace (lower_edge (-2) 1 2 1) (upper_edge (-2) 1 2 1) (5000 / 2)))
    = (Some (-0.5), Some (-0.5))%float
  ∧ (last (linspace (lower_edge (-1) 1 2 0) (upper_edge (-1) 1 2 0) (5000 / 2)),
     head (linspace (lower_edge (-1) 1 2 1) (upper_edge (-1) 1 2 1) (5000 / 2)))
    = (Some 0, Some 0)%float
  ∧ (fun '(br, bc, lr, lc) =>
       getitem (grid_kernel_output 4 5000 2 2 (-2) 1 (-1) 1 br bc) lr lc)
      <$> [(0, 0, 1, 2499); (0, 1, 1, 0); (1, 0, 0, 2499); (1, 1, 0, 0)]
    = replicate 4 (Some (mandelbrot (-0.5) 0 100 4.0))
  ∧ (∀ rows cols xmin xmax ymin ymax,
       ∃ M, split_by_columns rows cols 2 xmin xmax ymin ymax = inr M
            ∧ has_shape rows (2 * (cols / 4)) M)
  ∧ split_by_columns 3 8 2 (-2) 1 (-1) 1
    = inr [[0; 3; 13; 11]; [0; 100; 110; 11]; [0; 3; 13; 11]]%Z.
Proof.
  split; [vm_compute; reflexivity|].
  split; [vm_compute; reflexivity|].
  split; [vm_compute; reflexivity|].
  split.
  { exists (match split_by_columns 3 5000 4 (-2) 1 (-1) 1 with
            | inr M => M
            | inl _ => []
            end).
    split; [|split]; vm_compute; reflexivity. }
  split; [vm_compute; reflexivity|].
  split; [vm_compute; reflexivity|].
  split; [vm_compute; reflexivity|].
  split; [vm_compute; reflexivity|].
  split; [|vm_compute; reflexivity].
  intros rows cols xmin xmax ymin ymax.
  destruct (split_by_columns_spec rows cols 2 xmin xmax ymin ymax)
    as (M & HM & Hshape & _); [lia|].
  by exists M.
Qed.

(** C5, as the code has it.  The column split makes no divisibility check
    and raises nothing: it always assembles, every device computes a block
    of the same [cols // 4] columns (no unequal and no padded block), and
    the image has [total_gpus * (cols // 4)] columns; with the four devices
    of the cell and [cols] not a multiple of four these are fewer than
    [cols], the remaining columns of the grid being left out. *)
Theorem uneven_split_raises_nothing (rows cols total_gpus : nat)
    (xmin xmax ymin ymax : float) :
  0 < total_gpus →
  ∃ M, split_by_columns rows cols total_gpus xmin xmax ymin ymax = inr M
       ∧ has_shape rows (total_gpus * (cols / 4)) M
       ∧ (∀ i, i < total_gpus →
            has_shape rows (cols / 4)
              (column_block rows cols total_gpus xmin xmax ymin ymax i))
       ∧ (total_gpus = 4 → cols mod 4 ≠ 0 → total_gpus * (cols / 4) < cols).
Proof.
  intros HP.
  destruct (split_by_columns_spec rows cols total_gpus xmin xmax ymin ymax HP)
    as (M & HM & Hshape & _).
  exists M. split; [done|]. split; [done|]. split.
  - intros i _. apply has_shape_column_block.
  - intros -> Hmod. pose proof (Nat.div_mod_eq cols 4). lia.
Qed.

Lemma uneven_split_raises_nothing_witness :
  ∃ M, split_by_columns 3 6 4 (-2) 1 (-1) 1 = inr M ∧ has_shape 3 (4 * (6 / 4)) M.
Proof.
  destruct (uneven_split_raises_nothing 3 6 4 (-2) 1 (-1) 1) as (M & HM & Hs & _);
    [lia|].
  eauto.
Defined.

(** C5, as stated, fails: four devices do not evenly divide six columns,
    yet the split raises nothing and returns an image of four columns. *)
Lemma uneven_split_accepted :
  6 mod 4 ≠ 0
  ∧ split_by_columns 3 6 4 (-2) 1 (-1) 1
    = inr [[0; 12; 23; 33]; [0; 110; 120; 130]; [0; 12; 23; 33]]%Z.
Proof. split; [done|]. vm_compute. reflexivity. Qed.

(** C3, as the code has it.  The field of the column split is, block by
    block, the kernel output of the device plus the offset [10 * i] that
    gives the device its colour: the element at row [r] and local column
    [lc] of device [i] stands at column [i * (cols // 4) + lc] of the image,
    increased by [10 * i] (as an [int32]). *)
Theorem split_field_is_offset_blocks (rows cols total_gpus : nat)
    (xmin xmax ymin ymax : float) :
  0 < total_gpus →
  ∃ M, split_by_columns rows cols total_gpus xmin xmax ymin ymax = inr M
       ∧ ∀ i r lc v, i < total_gpus →
           getitem (column_kernel_output rows cols total_gpus xmin xmax ymin ymax i) r lc
           = Some v →
           getitem M r (i * (cols / 4) + lc) = Some (wrap32 (v + Z.of_nat i * 10)).
Proof.
  intros HP.
  destruct (split_by_columns_spec rows cols total_gpus xmin xmax ymin ymax HP)
    as (M & HM & _ & Hget).
  exists M. split; [done|]. intros i r lc v Hi Hv.
  destruct (getitem_inside rows (cols / 4) _ r lc v
              (has_shape_column_kernel_output rows cols total_gpus
                 xmin xmax ymin ymax i) Hv) as [_ Hlc].
  rewrite (Hget i r lc Hi Hlc). unfold column_block.
  by rewrite getitem_add_scalar, Hv.
Qed.

Lemma split_field_is_offset_blocks_witness :
  ∃ M, split_by_columns 3 8 4 (-2) 1 (-1) 1 = inr M
       ∧ getitem M 1 (2 * (8 / 4) + 1) = Some (wrap32 (100 + Z.of_nat 2 * 10)).
Proof.
  destruct (split_field_is_offset_blocks 3 8 4 (-2) 1 (-1) 1) as (M & HM & Hget);
    [lia|].
  exists M. split; [done|]. apply Hget; [lia|]. vm_compute. reflexivity.
Defined.

(** The values of the two fields, cell by cell. *)
Lemma getitem_mandelbrot_array (rows cols : nat) (xmin xmax ymin ymax : float)
    (r c : nat) (x y : float) :
  linspace xmin xmax cols !! c = Some x → linspace ymin ymax rows !! r = Some y →
  getitem (mandelbrot_array rows cols xmin xmax ymin ymax) r c
  = Some (mandelbrot x y 100 4.0%float).
Proof.
  intros Hx Hy. unfold mandelbrot_array.
  change (getitem (mandelbrot_kernel
                     (meshgrid (linspace xmin xmax cols) (linspace ymin ymax rows)).1
                     (meshgrid (linspace xmin xmax cols) (linspace ymin ymax rows)).2
                     100 4.0%float) r c = Some (mandelbrot x y 100 4.0%float)).
  rewrite kernel_on_meshgrid.
  by apply (getitem_fmap_fmap (fun y x => mandelbrot x y 100 4.0%float)).
Qed.

Lemma getitem_column_kernel_output (rows cols total_gpus : nat)
    (xmin xmax ymin ymax : float) (i r c : nat) (x y : float) :
  linspace (lower_edge xmin xmax total_gpus i) (upper_edge xmin xmax total_gpus i)
    (cols / 4) !! c = Some x →
  linspace ymin ymax rows !! r = Some y →
  getitem (column_kernel_output rows cols total_gpus xmin xmax ymin ymax i) r c
  = Some (mandelbrot x y 100 4.0%float).
Proof.
  intros Hx Hy. unfold column_kernel_output.
  set (xs := linspace _ _ (cols / 4)) in *. set (ys := linspace ymin ymax rows) in *.
  change (getitem (mandelbrot_kernel (meshgrid xs ys).1 (meshgrid xs ys).2
                     100 4.0%float) r c = Some (mandelbrot x y 100 4.0%float)).
  rewrite kernel_on_meshgrid.
  by apply (getitem_fmap_fmap (fun y x => mandelbrot x y 100 4.0%float)).
Qed.

(** C3, as stated, fails: at the sizes and bounds of the notebook (5000 by
    5000 points of [-2, 1] x [-1, 1]) the last cell of the first row is [1]
    on one device and [31] in the field split over four. *)
Lemma split_changes_the_field :
  getitem (mandelbrot_array 5000 5000 (-2) 1 (-1) 1) 0 4999 = Some 1%Z
  ∧ ∃ M, split_by_columns 5000 5000 4 (-2) 1 (-1) 1 = inr M
         ∧ getitem M 0 4999 = Some 31%Z.
Proof.
  split.
  - rewrite (getitem_mandelbrot_array _ _ _ _ _ _ 0 4999 1%float (-1)%float);
      [reflexivity | vm_compute; reflexivity | vm_compute; reflexivity].
  - destruct (split_by_columns_spec 5000 5000 4 (-2) 1 (-1) 1) as (M & HM & _ & Hget);
      [lia|].
    exists M. split; [done|].
    replace 4999 with (3 * (5000 / 4) + 1249) by reflexivity.
    rewrite Hget; [|lia|vm_compute; lia].
    unfold column_block. rewrite getitem_add_scalar.
    rewrite (getitem_column_kernel_output _ _ _ _ _ _ _ 3 0 1249 1%float (-1)%float);
      [reflexivity | vm_compute; reflexivity | vm_compute; reflexivity].
Qed.

(** * Further properties of the stencil notebook *)

(** ** The one-dimensional update *)

Lemma kernel1D_absolute (a : list float) (F : float) (i : nat) :
  1 ≤ i →
  central_diff_kernel (rel1 a i) F
  = (getitem1 a i + F * (getitem1 a (i + 1) - 2.0 * getitem1 a i + getitem1 a (i - 1)))%float.
Proof.
  intros Hi. unfold central_diff_kernel, rel1.
  rewrite Z.add_0_r, Nat2Z.id.
  replace (Z.to_nat (Z.of_nat i + 1)) with (i + 1) by lia.
  replace (Z.to_nat (Z.of_nat i + -1)) with (i - 1) by lia.
  done.
Qed.

(** Every update of the one-dimensional simulation applies the three-point
    formula [next[i] = current[i] + F * (current[i+1] - 2 * current[i]
    + current[i-1])] to every cell that has both neighbours. *)
Theorem three_point_update (x : list float) (F : float) (k i : nat) :
  1 ≤ i → i + 1 < length x →
  let current := simulation x F (Z.of_nat k) in
  getitem1 (simulation x F (Z.of_nat (S k))) i
  = (getitem1 current i
     + F * (getitem1 current (i + 1) - 2.0 * getitem1 current i
            + getitem1 current (i - 1)))%float.
Proof.
  intros Hi Hi' current. rewrite simulation_succ. fold current.
  pose proof (length_simulation x F (Z.of_nat k)) as Hlen. fold current in Hlen.
  unfold central_diff_stencil.
  rewrite getitem1_stencil1 by lia. rewrite decide_True by lia.
  by apply kernel1D_absolute.
Qed.

Lemma three_point_update_witness :
  getitem1 (simulation [0; 1; 0]%float 0.25%float 1) 1
  = (1 + 0.25 * (0 - 2.0 * 1 + 0))%float.
Proof.
  apply (three_point_update [0; 1; 0]%float 0.25%float 0 1); simpl; lia.
Defined.

(** ** Shapes *)

Lemma well_formed_simulation2D (x : ndarray2) (Fx Fy : float) (n : nat) :
  well_formed x ∨ 1 ≤ n →
  well_formed (repeat_step (fun x => central_diff_stencil2D x Fx Fy) n x).
Proof.
  revert x. induction n as [|n IH]; intros x Hx; simpl.
  - destruct Hx as [Hx|Hx]; [done|lia].
  - apply IH. left. unfold central_diff_stencil2D.
    by destruct (shape_stencil2 (fun x => central_diff_kernel2D x Fx Fy) x) as (_ & _ & ?).
Qed.

(** The simulations return an array of the shape of their input, and from
    the first update on the buffer has exactly [shape0 * shape1] elements,
    whatever the buffer of the input was. *)
Theorem simulation_keeps_shape (x2 : ndarray2) (Fx Fy : float) (x1 : list float)
    (F : float) (nt : Z) :
  well_formed x2 ∨ (1 ≤ nt)%Z →
  shape0 (simulation2D x2 Fx Fy nt) = shape0 x2
  ∧ shape1 (simulation2D x2 Fx Fy nt) = shape1 x2
  ∧ well_formed (simulation2D x2 Fx Fy nt)
  ∧ length (simulation x1 F nt) = length x1.
Proof.
  intros Hx. destruct (shape_simulation2D x2 Fx Fy nt) as [H0 H1].
  split; [done|]. split; [done|]. split; [|apply length_simulation].
  unfold simulation2D. apply well_formed_simulation2D.
  destruct Hx as [Hx|Hx]; [by left|right; lia].
Qed.

Lemma simulation_keeps_shape_witness :
  well_formed (simulation2D (mk_ndarray2 3 3 []) 0.1%float 0.1%float 1).
Proof.
  destruct (simulation_keeps_shape (mk_ndarray2 3 3 []) 0.1%float 0.1%float [] 0%float 1)
    as (_ & _ & H & _); [right; lia|exact H].
Defined.

(** ** Arrays without interior *)

Lemma interior2_small (n0 n1 : nat) : n0 < 3 ∨ n1 < 3 → interior2 n0 n1 = [].
Proof.
  intros H. unfold interior2, range.
  destruct (decide (n0 < 3)) as [H0|H0].
  - by replace (n0 - 1 - 1) with 0 by lia.
  - replace (n1 - 1 - 1) with 0 by lia. simpl.
    induction (seq 1 (n0 - 1 - 1)) as [|i l IH]; [done|].
    by rewrite bind_cons, IH.
Qed.

Lemma repeat_step_last {A : Type} (f : A → A) (n : nat) (x : A) :
  1 ≤ n → ∃ y, repeat_step f n x = f y ∧ y = repeat_step f (n - 1) x.
Proof.
  intros Hn. destruct n as [|n]; [lia|].
  exists (repeat_step f n x). split; [apply repeat_step_succ|].
  by replace (S n - 1) with n by lia.
Qed.

(** An array with fewer than three rows or fewer than three columns (fewer
    than three elements in one dimension) has no cell with a full
    neighbourhood: after one update or more the result is all zeros. *)
Theorem small_arrays_become_zero (x2 : ndarray2) (Fx Fy : float) (x1 : list float)
    (F : float) (nt : Z) :
  (1 ≤ nt)%Z →
  (shape0 x2 < 3 ∨ shape1 x2 < 3 →
   simulation2D x2 Fx Fy nt = full2 (shape0 x2) (shape1 x2) 0%float)
  ∧ (length x1 < 3 → simulation x1 F nt = full1 (length x1) 0%float).
Proof.
  intros Hnt. split.
  - intros Hsmall. unfold simulation2D.
    destruct (repeat_step_last (fun x => central_diff_stencil2D x Fx Fy)
                (Z.to_nat nt) x2) as (y & -> & Hy); [lia|].
    assert (shape0 y = shape0 x2 ∧ shape1 y = shape1 x2) as [H0 H1].
    { subst y.
      apply (repeat_step_invariant
               (fun y => shape0 y = shape0 x2 ∧ shape1 y = shape1 x2)); [done|].
      intros z [Hz0 Hz1]. unfold central_diff_stencil2D.
      by destruct (shape_stencil2 (fun x => central_diff_kernel2D x Fx Fy) z)
        as (-> & -> & _). }
    unfold central_diff_stencil2D, stencil2.
    rewrite H0, H1, interior2_small by done. done.
  - intros Hsmall. unfold simulation.
    destruct (repeat_step_last (fun x => central_diff_stencil x F)
                (Z.to_nat nt) x1) as (y & -> & Hy); [lia|].
    assert (length y = length x1) as Hlen.
    { subst y. apply (repeat_step_invariant (fun y => length y = length x1)); [done|].
      intros z Hz. unfold central_diff_stencil. by rewrite length_stencil1. }
    unfold central_diff_stencil, stencil1, interior1, range.
    rewrite Hlen. by replace (length x1 - 1 - 1) with 0 by lia.
Qed.

Lemma small_arrays_become_zero_witness :
  simulation2D (full2 2 5 1%float) 0.1%float 0.1%float 3 = full2 2 5 0%float
  ∧ simulation [1; 1]%float 0.25%float 3 = [0; 0]%float.
Proof.
  destruct (small_arrays_become_zero (full2 2 5 1%float) 0.1%float 0.1%float
              [1; 1]%float 0.25%float 3) as [H2 H1]; [lia|].
  split; [apply H2; simpl; lia | apply H1; simpl; lia].
Defined.

(** ** Runs compose *)

Lemma repeat_step_add {A : Type} (f : A → A) (n m : nat) (x : A) :
  repeat_step f (n + m) x = repeat_step f m (repeat_step f n x).
Proof. revert x. induction n as [|n IH]; intros x; [done|]. apply (IH (f x)). Qed.

(** Running [n] iterations and then [m] more on the result is running
    them in one call; a negative count is a count of zero. *)
Theorem simulations_compose (x2 : ndarray2) (Fx Fy : float) (x1 : list float)
    (F : float) (n m : Z) :
  simulation2D (simulation2D x2 Fx Fy n) Fx Fy m
  = simulation2D x2 Fx Fy (Z.max n 0 + Z.max m 0)
  ∧ simulation (simulation x1 F n) F m = simulation x1 F (Z.max n 0 + Z.max m 0).
Proof.
  unfold simulation2D, simulation.
  replace (Z.to_nat (Z.max n 0 + Z.max m 0)) with (Z.to_nat n + Z.to_nat m) by lia.
  by rewrite !repeat_step_add.
Qed.

(** ** What a cell depends on *)

(** After [k] updates the value of a cell is determined by the input cells
    at most [k] steps away (steps along rows and columns): two fields of
    one shape that agree there give the same value. *)
Theorem finite_propagation (x y : ndarray2) (Fx Fy : float) (k i j : nat) :
  shape0 x = shape0 y → shape1 x = shape1 y →
  i < shape0 x → j < shape1 x →
  (∀ i' j', i' < shape0 x → j' < shape1 x →
            (i - i') + (i' - i) + ((j - j') + (j' - j)) ≤ k →
            getitem2 x i' j' = getitem2 y i' j') →
  getitem2 (simulation2D x Fx Fy (Z.of_nat k)) i j
  = getitem2 (simulation2D y Fx Fy (Z.of_nat k)) i j.
Proof.
  intros H0 H1. revert i j. induction k as [|k IH]; intros i j Hi Hj Hagree.
  - apply Hagree; [done..|lia].
  - rewrite !simulation2D_succ.
    destruct (shape_simulation2D x Fx Fy (Z.of_nat k)) as [Hx0 Hx1].
    destruct (shape_simulation2D y Fx Fy (Z.of_nat k)) as [Hy0 Hy1].
    unfold central_diff_stencil2D.
    rewrite !getitem2_stencil2 by lia.
    rewrite Hx0, Hx1, Hy0, Hy1, <- H0, <- H1.
    case_decide as Hint; [|done].
    rewrite !kernel2D_absolute by lia.
    rewrite (IH i j), (IH (i - 1) j), (IH (i + 1) j), (IH i (j - 1)), (IH i (j + 1));
      try lia; try done;
      intros i' j' Hi' Hj' Hd; apply Hagree; lia.
Qed.

Lemma finite_propagation_witness :
  getitem2 (simulation2D Scenario.impulse 0.1%float 0.1%float 1) 1 1
  = getitem2 (simulation2D (full2 9 9 0%float) 0.1%float 0.1%float 1) 1 1.
Proof.
  apply (finite_propagation Scenario.impulse (full2 9 9 0%float) 0.1%float 0.1%float
           1 1 1); [reflexivity | reflexivity | simpl; lia | simpl; lia |].
  intros i' j' Hi' Hj' Hd.
  assert (i' ≤ 2 ∧ j' ≤ 2) as [Hi2 Hj2] by lia.
  destruct i' as [|[|[|i']]]; [| | |lia];
    destruct j' as [|[|[|j']]]; try lia; reflexivity.
Defined.

(** The same in one dimension: the value of a cell after [k] updates is
    determined by the input cells at most [k] positions away. *)
Theorem finite_propagation_1D (x y : list float) (F : float) (k i : nat) :
  length x = length y → i < length x →
  (∀ i', i' < length x → (i - i') + (i' - i) ≤ k → getitem1 x i' = getitem1 y i') →
  getitem1 (simulation x F (Z.of_nat k)) i = getitem1 (simulation y F (Z.of_nat k)) i.
Proof.
  intros Hlen. revert i. induction k as [|k IH]; intros i Hi Hagree.
  - apply Hagree; [done|lia].
  - rewrite !simulation_succ.
    pose proof (length_simulation x F (Z.of_nat k)) as Hx.
    pose proof (length_simulation y F (Z.of_nat k)) as Hy.
    unfold central_diff_stencil.
    rewrite !getitem1_stencil1 by lia.
    rewrite Hx, Hy, <- Hlen.
    case_decide as Hint; [|done].
    rewrite !kernel1D_absolute by lia.
    rewrite (IH i), (IH (i + 1)), (IH (i - 1));
      try lia; try done;
      intros i' Hi' Hd; apply Hagree; lia.
Qed.

Lemma finite_propagation_1D_witness :
  getitem1 (simulation [0; 0; 0; 0; 1]%float 0.25%float 1) 1
  = getitem1 (simulation [0; 0; 0; 0; 0]%float 0.25%float 1) 1.
Proof.
  apply (finite_propagation_1D [0; 0; 0; 0; 1]%float [0; 0; 0; 0; 0]%float
           0.25%float 1 1); [reflexivity | simpl; lia |].
  intros i' Hi' Hd.
  destruct i' as [|[|[|i']]]; [reflexivity..|lia].
Defined.

Lemma apply_writes_ext {A K : Type} (setitem : K → float → A → A)
    (val1 val2 : K → float) (idxs : list K) (o : A) :
  (∀ k, k ∈ idxs → val1 k = val2 k) →
  apply_writes setitem val1 idxs o = apply_writes setitem val2 idxs o.
Proof.
  revert o. induction idxs as [|k idxs IH]; intros o Hval; [done|].
  unfold apply_writes in *. simpl.
  rewrite (Hval k) by apply list_elem_of_here.
  apply IH. intros k' Hk'. apply Hval. by apply list_elem_of_further.
Qed.

(** The five-point stencil never reads the four corner cells of its input:
    two arrays of one shape that agree in every other cell of the grid have
    the same update, buffer for buffer. *)
Theorem corners_are_never_read (x y : ndarray2) (Fx Fy : float) :
  shape0 x = shape0 y → shape1 x = shape1 y →
  (∀ i j, i < shape0 x → j < shape1 x →
          ¬ ((i = 0 ∨ i + 1 = shape0 x) ∧ (j = 0 ∨ j + 1 = shape1 x)) →
          getitem2 x i j = getitem2 y i j) →
  central_diff_stencil2D x Fx Fy = central_diff_stencil2D y Fx Fy.
Proof.
  intros H0 H1 Hagree. unfold central_diff_stencil2D, stencil2.
  rewrite <- H0, <- H1.
  apply apply_writes_ext. intros [i j] Hin%elem_of_interior2.
  rewrite !kernel2D_absolute by lia.
  rewrite (Hagree i j), (Hagree (i - 1) j), (Hagree (i + 1) j),
    (Hagree i (j - 1)), (Hagree i (j + 1)) by lia.
  done.
Qed.

Lemma corners_are_never_read_witness :
  central_diff_stencil2D (setitem2 (0, 2) 7%float (full2 3 3 1%float)) 0.1%float 0.1%float
  = central_diff_stencil2D (full2 3 3 1%float) 0.1%float 0.1%float.
Proof.
  apply corners_are_never_read; [reflexivity | reflexivity |].
  intros i j Hi Hj Hcorner. simpl in Hi, Hj.
  destruct i as [|[|[|i]]]; [| | |lia];
    destruct j as [|[|[|j]]]; try lia; try reflexivity.
  exfalso. apply Hcorner. simpl. lia.
Defined.

(** ** Set-up with a zero count *)

Lemma truediv_int_zero (a : float) : truediv_int a 0 = inl ZeroDivisionError.
Proof. reflexivity. Qed.

(** A grid or step count of zero makes set-up fail at its division, before
    anything is computed with the field: the solver raises the same
    exception and returns no field.  With [nx = 0] the exception is
    [ZeroDivisionError], the first division being [L / nx]. *)
Theorem setup_with_zero_count (pow : float → float → float * errno)
    (c2 : Setup.config2D) (temp2 : ndarray2) (c1 : Setup.config1D) (temp1 : list float) :
  Setup.nx c2 = 0%Z ∨ Setup.ny c2 = 0%Z ∨ Setup.nt c2 = 0%Z →
  Setup.nx1 c1 = 0%Z ∨ Setup.nt1 c1 = 0%Z →
  (∃ e, Setup.setup2D pow c2 = inl e ∧ Setup.solve2D pow c2 temp2 = inl e
        ∧ (Setup.nx c2 = 0%Z → e = ZeroDivisionError))
  ∧ (∃ e, Setup.setup1D pow c1 = inl e ∧ Setup.solve1D pow c1 temp1 = inl e
          ∧ (Setup.nx1 c1 = 0%Z → e = ZeroDivisionError)).
Proof.
  intros H2 H1. split.
  - unfold Setup.solve2D, Setup.setup2D.
    destruct (decide (Setup.nx c2 = 0%Z)) as [Hnx|Hnx].
    { rewrite Hnx, truediv_int_zero. by exists ZeroDivisionError. }
    destruct (truediv_int (Setup.L c2) (Setup.nx c2)) as [e|dx]; [by exists e|].
    destruct (decide (Setup.ny c2 = 0%Z)) as [Hny|Hny].
    { rewrite Hny, truediv_int_zero. by exists ZeroDivisionError. }
    destruct (truediv_int (Setup.L c2) (Setup.ny c2)) as [e|dy]; [by exists e|].
    assert (Setup.nt c2 = 0%Z) as -> by tauto.
    rewrite truediv_int_zero. by exists ZeroDivisionError.
  - unfold Setup.solve1D, Setup.setup1D.
    destruct (decide (Setup.nx1 c1 = 0%Z)) as [Hnx|Hnx].
    { rewrite Hnx, truediv_int_zero. by exists ZeroDivisionError. }
    destruct (truediv_int (Setup.L1 c1) (Setup.nx1 c1)) as [e|dx]; [by exists e|].
    assert (Setup.nt1 c1 = 0%Z) as -> by tauto.
    rewrite truediv_int_zero. by exists ZeroDivisionError.
Qed.

Lemma setup_with_zero_count_witness :
  Setup.setup2D Scenario.rounded_square (Setup.mk_config2D 0 8 10 1 8 1)
  = inl ZeroDivisionError
  ∧ ∃ e, Setup.setup1D Scenario.rounded_square (Setup.mk_config1D 500 0 100 100 1)
         = inl e.
Proof.
  destruct (setup_with_zero_count Scenario.rounded_square
              (Setup.mk_config2D 0 8 10 1 8 1) (full2 3 3 0%float)
              (Setup.mk_config1D 500 0 100 100 1) [])
    as [(e2 & H2 & _ & He2) (e1 & H1 & _)]; [left; reflexivity | right; reflexivity |].
  split; [|by exists e1].
  rewrite H2. f_equal. apply He2. reflexivity.
Defined.

(** ** The zero field *)

From Stdlib Require Floats.FloatAxioms.

(** A finite number times zero is a zero, of either sign. *)
Lemma mul_finite_zero (F : float) :
  is_finite F = true → (F * 0)%float = 0%float ∨ (F * 0)%float = (-0)%float.
Proof.
  intros HF.
  rewrite <- (FloatAxioms.SF2Prim_Prim2SF (F * 0)), FloatAxioms.mul_spec.
  rewrite <- (FloatAxioms.SF2Prim_Prim2SF F) in HF.
  destruct (Prim2SF F) as [s|s| |s m e].
  - destruct s; [right|left]; reflexivity.
  - destruct s; discriminate HF.
  - discriminate HF.
  - destruct s; [right|left]; reflexivity.
Qed.

Lemma kernel_of_zeros (F : float) :
  is_finite F = true → (0 + F * (0 - 2.0 * 0 + 0))%float = 0%float.
Proof.
  intros HF. change (0 - 2.0 * 0 + 0)%float with 0%float.
  by destruct (mul_finite_zero F HF) as [-> | ->].
Qed.

Lemma kernel2D_of_zeros (Fx Fy : float) :
  is_finite Fx = true → is_finite Fy = true →
  (0 + Fx * (0 - 2.0 * 0 + 0) + Fy * (0 - 2.0 * 0 + 0))%float = 0%float.
Proof.
  intros Hx Hy. rewrite (kernel_of_zeros Fx Hx).
  by apply kernel_of_zeros.
Qed.

Lemma getitem2_full2_zero (n0 n1 i j : nat) : getitem2 (full2 n0 n1 0%float) i j = 0%float.
Proof.
  unfold getitem2, full2; simpl.
  destruct (replicate (n0 * n1) 0%float !! (i * n1 + j)) as [v|] eqn:Hv; [|done].
  by apply lookup_replicate in Hv as [-> _].
Qed.

Lemma getitem1_full1_zero (n i : nat) : getitem1 (full1 n 0%float) i = 0%float.
Proof.
  unfold getitem1, full1.
  destruct (replicate n 0%float !! i) as [v|] eqn:Hv; [|done].
  by apply lookup_replicate in Hv as [-> _].
Qed.

Lemma apply_writes_zero2 (idxs : list (nat * nat)) (n0 n1 : nat) :
  apply_writes setitem2 (fun _ => 0%float) idxs (full2 n0 n1 0%float)
  = full2 n0 n1 0%float.
Proof.
  induction idxs as [|k idxs IH] using rev_ind; [done|].
  rewrite apply_writes_snoc, IH. unfold setitem2, full2; simpl. f_equal.
  apply list_eq. intros p.
  destruct (decide (p = k.1 * n1 + k.2)) as [->|Hp].
  - destruct (decide (k.1 * n1 + k.2 < n0 * n1)) as [Hlt|Hge].
    + rewrite list_lookup_insert_eq by (by rewrite length_replicate).
      by rewrite lookup_replicate_2.
    + by rewrite list_insert_ge by (rewrite length_replicate; lia).
  - by rewrite list_lookup_insert_ne.
Qed.

Lemma apply_writes_zero1 (idxs : list nat) (n : nat) :
  apply_writes setitem1 (fun _ => 0%float) idxs (full1 n 0%float) = full1 n 0%float.
Proof.
  induction idxs as [|k idxs IH] using rev_ind; [done|].
  rewrite apply_writes_snoc, IH. unfold setitem1, full1.
  apply list_eq. intros p.
  destruct (decide (p = k)) as [->|Hp].
  - destruct (decide (k < n)) as [Hlt|Hge].
    + rewrite list_lookup_insert_eq by (by rewrite length_replicate).
      by rewrite lookup_replicate_2.
    + by rewrite list_insert_ge by (rewrite length_replicate; lia).
  - by rewrite list_lookup_insert_ne.
Qed.

(** The zero field is a steady state for every finite factor, stable or
    not: the simulations return it unchanged for every iteration count. *)
Theorem zero_field_is_steady (n0 n1 n : nat) (Fx Fy F : float) (nt : Z) :
  is_finite Fx = true → is_finite Fy = true → is_finite F = true →
  simulation2D (full2 n0 n1 0%float) Fx Fy nt = full2 n0 n1 0%float
  ∧ simulation (full1 n 0%float) F nt = full1 n 0%float.
Proof.
  intros Hx Hy HF. split.
  - unfold simulation2D.
    apply (repeat_step_invariant (fun a => a = full2 n0 n1 0%float)); [done|].
    intros a ->. unfold central_diff_stencil2D, stencil2. simpl.
    rewrite <- (apply_writes_zero2 (interior2 n0 n1) n0 n1) at 2.
    apply apply_writes_ext. intros [i j] Hin%elem_of_interior2.
    rewrite kernel2D_absolute by lia.
    rewrite !getitem2_full2_zero. by apply kernel2D_of_zeros.
  - unfold simulation.
    apply (repeat_step_invariant (fun a => a = full1 n 0%float)); [done|].
    intros a ->. unfold central_diff_stencil, stencil1.
    replace (length (full1 n 0%float)) with n
      by (unfold full1; by rewrite length_replicate).
    rewrite <- (apply_writes_zero1 (interior1 n) n) at 2.
    apply apply_writes_ext. intros i Hin%elem_of_interior1.
    rewrite kernel1D_absolute by lia.
    rewrite !getitem1_full1_zero. by apply kernel_of_zeros.
Qed.

Lemma zero_field_is_steady_witness :
  simulation2D (full2 9 9 0%float) 5%float 0.1%float 10 = full2 9 9 0%float
  ∧ simulation (full1 5 0%float) 0.25%float 10 = full1 5 0%float.
Proof.
  apply zero_field_is_steady; reflexivity.
Defined.

(** Heat travels one cell per update: with finite factors, a cell all of
    whose input cells at most [k] steps away are zero is still exactly zero
    after [k] updates. *)
Theorem heat_travels_one_cell_per_update (x : ndarray2) (Fx Fy : float) (k i j : nat) :
  is_finite Fx = true → is_finite Fy = true →
  i < shape0 x → j < shape1 x →
  (∀ i' j', i' < shape0 x → j' < shape1 x →
            (i - i') + (i' - i) + ((j - j') + (j' - j)) ≤ k →
            getitem2 x i' j' = 0%float) →
  getitem2 (simulation2D x Fx Fy (Z.of_nat k)) i j = 0%float.
Proof.
  intros HFx HFy. revert i j. induction k as [|k IH]; intros i j Hi Hj Hzero.
  - apply Hzero; [done..|lia].
  - rewrite simulation2D_succ.
    destruct (shape_simulation2D x Fx Fy (Z.of_nat k)) as [H0 H1].
    unfold central_diff_stencil2D.
    rewrite getitem2_stencil2 by lia. rewrite H0, H1.
    case_decide as Hint; [|done].
    rewrite kernel2D_absolute by lia.
    rewrite (IH i j), (IH (i - 1) j), (IH (i + 1) j), (IH i (j - 1)), (IH i (j + 1));
      try lia; try (by apply kernel2D_of_zeros);
      intros i' j' Hi' Hj' Hd; apply Hzero; lia.
Qed.

Lemma heat_travels_one_cell_per_update_witness :
  getitem2 (simulation2D Scenario.impulse 0.1%float 0.1%float 2) 1 4 = 0%float.
Proof.
  apply (heat_travels_one_cell_per_update Scenario.impulse 0.1%float 0.1%float 2 1 4);
    [reflexivity | reflexivity | simpl; lia | simpl; lia |].
  intros i' j' Hi' Hj' Hd.
  assert (i' ≤ 3 ∧ 2 ≤ j' ≤ 6) as [Hi3 [Hj2 Hj6]] by lia.
  destruct i' as [|[|[|[|i']]]]; [| | | |lia];
    do 7 (destruct j' as [|j']; [try lia; try reflexivity|]); lia.
Defined.

(** * Further properties of the Mandelbrot exercise *)

(** ** The kernel *)

Lemma mandelbrot_loop_bounds (fuel : nat) (cx cy x y radius2 : float) (nit : Z) :
  (nit ≤ mandelbrot_loop fuel cx cy x y radius2 nit ≤ nit + Z.of_nat fuel)%Z.
Proof.
  revert x y nit. induction fuel as [|fuel IH]; intros x y nit; simpl; [lia|].
  destruct (x * x + y * y <? radius2)%float; [|lia].
  specialize (IH (x * x - y * y + cx)%float (2.0 * x * y + cy)%float (nit + 1)%Z). lia.
Qed.

(** The kernel counts between zero and [itermax] rounds, whatever the
    point and the radius (not a number included). *)
Theorem mandelbrot_bounds (X Y : float) (itermax : Z) (radius2 : float) :
  (0 ≤ mandelbrot X Y itermax radius2 ≤ Z.max itermax 0)%Z.
Proof.
  unfold mandelbrot.
  pose proof (mandelbrot_loop_bounds (Z.to_nat itermax) X Y X Y radius2 0). lia.
Qed.

(** The count is zero exactly when no round is made: the budget is not
    positive, or the point itself fails the test [x * x + y * y < radius2]. *)
Theorem mandelbrot_zero_iff (X Y : float) (itermax : Z) (radius2 : float) :
  mandelbrot X Y itermax radius2 = 0%Z
  ↔ (itermax ≤ 0)%Z ∨ (X * X + Y * Y <? radius2)%float = false.
Proof.
  unfold mandelbrot. destruct (Z.to_nat itermax) as [|fuel] eqn:Hfuel; simpl.
  - split; [intros _; left; lia|done].
  - destruct (X * X + Y * Y <? radius2)%float.
    + pose proof (mandelbrot_loop_bounds fuel X Y (X * X - Y * Y + X)%float
                    (2.0 * X * Y + Y)%float radius2 (0 + 1)) as Hb.
      split; [lia|]. intros [H|H]; [lia|done].
    + split; [by right|done].
Qed.

Lemma mandelbrot_loop_stable (fuel fuel' : nat) (cx cy x y radius2 : float) (nit : Z) :
  fuel ≤ fuel' →
  (mandelbrot_loop fuel cx cy x y radius2 nit < nit + Z.of_nat fuel)%Z →
  mandelbrot_loop fuel' cx cy x y radius2 nit = mandelbrot_loop fuel cx cy x y radius2 nit.
Proof.
  revert fuel' x y nit. induction fuel as [|fuel IH]; intros fuel' x y nit Hle Hlt.
  - simpl in Hlt. lia.
  - destruct fuel' as [|fuel']; [lia|]. simpl in *.
    destruct (x * x + y * y <? radius2)%float; [|done].
    apply IH; lia.
Qed.

Lemma mandelbrot_loop_monotone (fuel fuel' : nat) (cx cy x y radius2 : float) (nit : Z) :
  fuel ≤ fuel' →
  (mandelbrot_loop fuel cx cy x y radius2 nit
   ≤ mandelbrot_loop fuel' cx cy x y radius2 nit)%Z.
Proof.
  revert fuel' x y nit. induction fuel as [|fuel IH]; intros fuel' x y nit Hle.
  - simpl. apply mandelbrot_loop_bounds.
  - destruct fuel' as [|fuel']; [lia|]. simpl.
    destruct (x * x + y * y <? radius2)%float; [|done].
    apply IH. lia.
Qed.

(** A larger budget never lowers the count, and a count below the budget is
    final: every larger budget gives the same count. *)
Theorem escape_count_is_stable (X Y : float) (n m : Z) (radius2 : float) :
  (n ≤ m)%Z →
  (mandelbrot X Y n radius2 ≤ mandelbrot X Y m radius2)%Z
  ∧ ((mandelbrot X Y n radius2 < n)%Z →
     mandelbrot X Y m radius2 = mandelbrot X Y n radius2).
Proof.
  intros Hnm. unfold mandelbrot. split.
  - apply mandelbrot_loop_monotone. lia.
  - intros Hlt. apply mandelbrot_loop_stable; lia.
Qed.

Lemma escape_count_is_stable_witness :
  mandelbrot 1 (-1) 5000 4 = mandelbrot 1 (-1) 100 4.
Proof.
  destruct (escape_count_is_stable 1 (-1) 100 5000 4) as [_ H]; [lia|].
  apply H. vm_compute. reflexivity.
Defined.

(** ** The images *)

Lemma count_at_most_100 (x y radius2 : float) : (0 ≤ mandelbrot x y 100 radius2 ≤ 100)%Z.
Proof.
  unfold mandelbrot.
  pose proof (mandelbrot_loop_bounds (Z.to_nat 100) x y x y radius2 0). lia.
Qed.

Lemma getitem_fmap_fmap_inv {A B C : Type} (g : B → A → C) (xs : list A) (ys : list B)
    (r c : nat) (v : C) :
  getitem ((fun y => g y <$> xs) <$> ys) r c = Some v →
  ∃ x y, xs !! c = Some x ∧ ys !! r = Some y ∧ v = g y x.
Proof.
  unfold getitem. rewrite list_lookup_fmap.
  destruct (ys !! r) as [y|]; [|done]. simpl. rewrite list_lookup_fmap.
  destruct (xs !! c) as [x|]; [|done]. simpl. intros [= <-]. by exists x, y.
Qed.

Lemma kernel_output_inv (xs ys : list float) (r c : nat) (v : Z) :
  getitem (mandelbrot_kernel (meshgrid xs ys).1 (meshgrid xs ys).2 100 4.0%float) r c
  = Some v →
  ∃ x y, xs !! c = Some x ∧ ys !! r = Some y ∧ v = mandelbrot x y 100 4.0%float.
Proof.
  rewrite kernel_on_meshgrid.
  apply (getitem_fmap_fmap_inv (fun y x => mandelbrot x y 100 4.0%float)).
Qed.

(** The image computed on one device has [rows] rows of [cols] pixels; the
    pixel of row [r] and column [c] is the count of the point whose real
    part is the [c]-th abscissa and whose imaginary part is the [r]-th
    ordinate, a number between 0 and 100. *)
Theorem single_device_image (rows cols : nat) (xmin xmax ymin ymax : float) :
  has_shape rows cols (mandelbrot_array rows cols xmin xmax ymin ymax)
  ∧ ∀ r c v,
      getitem (mandelbrot_array rows cols xmin xmax ymin ymax) r c = Some v →
      (0 ≤ v ≤ 100)%Z
      ∧ ∃ x y, linspace xmin xmax cols !! c = Some x
               ∧ linspace ymin ymax rows !! r = Some y
               ∧ v = mandelbrot x y 100 4.0%float.
Proof.
  unfold mandelbrot_array.
  set (xs := linspace xmin xmax cols). set (ys := linspace ymin ymax rows).
  change (let '(X, Y) := meshgrid xs ys in mandelbrot_kernel X Y 100 4.0%float)
    with (mandelbrot_kernel (meshgrid xs ys).1 (meshgrid xs ys).2 100 4.0%float).
  split.
  - pose proof (has_shape_kernel_output xs ys 100 4.0%float) as H.
    assert (length xs = cols) as Hx by apply length_linspace.
    assert (length ys = rows) as Hy by apply length_linspace.
    by rewrite Hx, Hy in H.
  - intros r c v Hv. destruct (kernel_output_inv xs ys r c v Hv) as (x & y & Hx & Hy & ->).
    split; [apply count_at_most_100|]. by exists x, y.
Qed.

Lemma has_shape_row_kernel_output (rows cols total_gpus : nat)
    (xmin xmax ymin ymax : float) (i : nat) :
  has_shape (rows / 4) cols (row_kernel_output rows cols total_gpus xmin xmax ymin ymax i).
Proof.
  unfold row_kernel_output.
  pose proof (has_shape_kernel_output (linspace xmin xmax cols)
                (linspace (lower_edge ymin ymax total_gpus i)
                   (upper_edge ymin ymax total_gpus i) (rows / 4))
                100 4.0%float) as H.
  by rewrite !length_linspace in H.
Qed.

Lemma split_by_rows_spec (rows cols total_gpus : nat) (xmin xmax ymin ymax : float) :
  0 < total_gpus →
  ∃ M, split_by_rows rows cols total_gpus xmin xmax ymin ymax = inr M
       ∧ has_shape (total_gpus * (rows / 4)) cols M
       ∧ ∀ i lr c, i < total_gpus → lr < rows / 4 →
           getitem M (i * (rows / 4) + lr) c
           = getitem (row_block rows cols total_gpus xmin xmax ymin ymax i) lr c.
Proof.
  intros HP. unfold split_by_rows.
  set (blocks := row_block rows cols total_gpus xmin xmax ymin ymax <$> seq 0 total_gpus).
  destruct (vstack_spec blocks (rows / 4) cols) as (M & HM & Hshape & Hget).
  - unfold blocks. destruct total_gpus; [lia|done].
  - unfold blocks. apply Forall_fmap, Forall_forall. intros i _.
    apply has_shape_add_scalar, has_shape_row_kernel_output.
  - exists M. split; [done|]. split.
    + unfold blocks in Hshape. by rewrite length_fmap, length_seq in Hshape.
    + intros i lr c Hi Hlr. apply Hget; [|done].
      unfold blocks. by rewrite list_lookup_fmap, lookup_seq_lt.
Qed.

(** The split by rows assembles for every positive number of devices: the
    image has [total_gpus * (rows // 4)] rows of [cols] pixels, and the
    pixel at local row [lr] of device [i] stands at row
    [i * (rows // 4) + lr], increased by the offset [10 * i]. *)
Theorem split_by_rows_assembles (rows cols total_gpus : nat)
    (xmin xmax ymin ymax : float) :
  0 < total_gpus →
  ∃ M, split_by_rows rows cols total_gpus xmin xmax ymin ymax = inr M
       ∧ has_shape (total_gpus * (rows / 4)) cols M
       ∧ ∀ i lr c v, i < total_gpus →
           getitem (row_kernel_output rows cols total_gpus xmin xmax ymin ymax i) lr c
           = Some v →
           getitem M (i * (rows / 4) + lr) c = Some (wrap32 (v + Z.of_nat i * 10)).
Proof.
  intros HP.
  destruct (split_by_rows_spec rows cols total_gpus xmin xmax ymin ymax HP)
    as (M & HM & Hshape & Hget).
  exists M. split; [done|]. split; [done|].
  intros i lr c v Hi Hv.
  destruct (getitem_inside (rows / 4) cols _ lr c v
              (has_shape_row_kernel_output rows cols total_gpus
                 xmin xmax ymin ymax i) Hv) as [Hlr _].
  rewrite (Hget i lr c Hi Hlr). unfold row_block.
  by rewrite getitem_add_scalar, Hv.
Qed.

Lemma split_by_rows_assembles_witness :
  ∃ M, split_by_rows 8 3 4 (-2) 1 (-1) 1 = inr M ∧ has_shape (4 * (8 / 4)) 3 M.
Proof.
  destruct (split_by_rows_assembles 8 3 4 (-2) 1 (-1) 1) as (M & HM & Hs & _); [lia|].
  eauto.
Defined.

(** The splits by columns and by rows fail in one case only, without any
    device: the split by columns then raises [IndexError], since
    [cp.hstack] looks at the first block of an empty list, and the split
    by rows raises [ValueError], since [cp.vstack] has nothing to
    concatenate. *)
Theorem one_dimensional_splits_fail_without_devices (rows cols total_gpus : nat)
    (xmin xmax ymin ymax : float) (e : exn) :
  (split_by_columns rows cols total_gpus xmin xmax ymin ymax = inl e
   ↔ total_gpus = 0 ∧ e = IndexError)
  ∧ (split_by_rows rows cols total_gpus xmin xmax ymin ymax = inl e
     ↔ total_gpus = 0 ∧ e = ValueError).
Proof.
  split; (split; [intros He | intros [-> ->]; reflexivity]);
    (destruct (decide (total_gpus = 0)) as [->|Hne];
     [cbn in He; injection He as <-; done|]).
  - destruct (split_by_columns_spec rows cols total_gpus xmin xmax ymin ymax)
      as (M & HM & _); [lia|congruence].
  - destruct (split_by_rows_spec rows cols total_gpus xmin xmax ymin ymax)
      as (M & HM & _); [lia|congruence].
Qed.

(** The split by rows and columns with at most two block rows and two
    block columns, the places of the literal list, has three outcomes:
    without block rows [cp.vstack] has nothing to concatenate and raises
    [ValueError]; with block rows but without block columns the inner
    [cp.hstack] of the first block row raises [IndexError]; otherwise the
    image has [gpus_y * (rows // gpus_y)] rows and
    [gpus_x * (cols // gpus_x)] columns. *)
Theorem grid_split_outcome (rows cols gpus_x gpus_y : nat) (xmin xmax ymin ymax : float) :
  gpus_x ≤ 2 → gpus_y ≤ 2 →
  match split_by_rows_and_columns rows cols gpus_x gpus_y xmin xmax ymin ymax with
  | inl e =>
      (e = ValueError ∧ gpus_y = 0) ∨ (e = IndexError ∧ 0 < gpus_y ∧ gpus_x = 0)
  | inr M =>
      1 ≤ gpus_x ∧ 1 ≤ gpus_y
      ∧ has_shape (gpus_y * (rows / gpus_y)) (gpus_x * (cols / gpus_x)) M
  end.
Proof.
  intros Hx Hy.
  destruct gpus_y as [|gy].
  { left. split; reflexivity. }
  destruct gpus_x as [|gx].
  { right. split; [reflexivity|]. split; [lia|reflexivity]. }
  destruct (split_by_rows_and_columns_spec rows cols (S gx) (S gy)
              xmin xmax ymin ymax) as (M & -> & Hshape & _); [lia..|].
  split; [lia|]. split; [lia|done].
Qed.

Lemma grid_split_outcome_witness :
  split_by_rows_and_columns 4 8 0 1 (-2) 1 (-1) 1 = inl IndexError
  ∧ split_by_rows_and_columns 4 8 2 0 (-2) 1 (-1) 1 = inl ValueError.
Proof.
  assert (0 ≤ 2 ∧ 1 ≤ 2 ∧ 2 ≤ 2) as (H0 & H1 & H2) by lia.
  pose proof (grid_split_outcome 4 8 0 1 (-2) 1 (-1) 1 H0 H1) as Hcolumns.
  pose proof (grid_split_outcome 4 8 2 0 (-2) 1 (-1) 1 H2 H0) as Hrows.
  split.
  - destruct (split_by_rows_and_columns 4 8 0 1 (-2) 1 (-1) 1) as [e|M].
    + destruct Hcolumns as [[_ H]|[-> _]]; [discriminate H|reflexivity].
    + destruct Hcolumns as (H & _). lia.
  - destruct (split_by_rows_and_columns 4 8 2 0 (-2) 1 (-1) 1) as [e|M].
    + destruct Hrows as [[-> _]|(_ & H & _)]; [reflexivity|lia].
    + destruct Hrows as (_ & H & _). lia.
Defined.

(** In the split by rows and columns the pixel at local row [lr] and local
    column [lc] of the device of block row [br] and block column [bc]
    stands at row [br * (rows // gpus_y) + lr] and column
    [bc * (cols // gpus_x) + lc] of the image, increased by the offsets
    [10 * br] and [20 * bc]. *)
Theorem grid_field_is_offset_blocks (rows cols gpus_x gpus_y : nat)
    (xmin xmax ymin ymax : float) :
  1 ≤ gpus_x ≤ 2 → 1 ≤ gpus_y ≤ 2 →
  ∃ M, split_by_rows_and_columns rows cols gpus_x gpus_y xmin xmax ymin ymax = inr M
       ∧ ∀ br bc lr lc v, br < gpus_y → bc < gpus_x →
           getitem (grid_kernel_output rows cols gpus_x gpus_y xmin xmax ymin ymax br bc)
             lr lc = Some v →
           getitem M (br * (rows / gpus_y) + lr) (bc * (cols / gpus_x) + lc)
           = Some (wrap32 (wrap32 (v + Z.of_nat br * 10) + Z.of_nat bc * 20)).
Proof.
  intros Hx Hy.
  destruct (split_by_rows_and_columns_spec rows cols gpus_x gpus_y
              xmin xmax ymin ymax Hx Hy) as (M & HM & _ & Hget).
  exists M. split; [done|]. intros br bc lr lc v Hbr Hbc Hv.
  assert (has_shape (rows / gpus_y) (cols / gpus_x)
            (grid_kernel_output rows cols gpus_x gpus_y xmin xmax ymin ymax br bc))
    as Hshape.
  { unfold grid_kernel_output.
    pose proof (has_shape_kernel_output
                  (linspace (lower_edge xmin xmax gpus_x bc)
                     (upper_edge xmin xmax gpus_x bc) (cols / gpus_x))
                  (linspace (lower_edge ymin ymax gpus_y br)
                     (upper_edge ymin ymax gpus_y br) (rows / gpus_y))
                  100 4.0%float) as H.
    by rewrite !length_linspace in H. }
  destruct (getitem_inside _ _ _ lr lc v Hshape Hv) as [Hlr Hlc].
  rewrite (Hget br bc lr lc Hbr Hbc Hlr Hlc).
  change (grid_block rows cols gpus_x gpus_y xmin xmax ymin ymax br bc)
    with (add_scalar
            (add_scalar
               (grid_kernel_output rows cols gpus_x gpus_y xmin xmax ymin ymax br bc)
               (Z.of_nat br * 10)) (Z.of_nat bc * 20)).
  by rewrite !getitem_add_scalar, Hv.
Qed.

Lemma grid_field_is_offset_blocks_witness :
  ∃ M, split_by_rows_and_columns 4 8 2 2 (-2) 1 (-1) 1 = inr M
       ∧ getitem M (1 * (4 / 2) + 0) (1 * (8 / 2) + 1)
         = Some (wrap32 (wrap32 (100 + Z.of_nat 1 * 10) + Z.of_nat 1 * 20)).
Proof.
  destruct (grid_field_is_offset_blocks 4 8 2 2 (-2) 1 (-1) 1) as (M & HM & Hget);
    [lia | lia |].
  exists M. split; [done|]. apply Hget; [lia | lia |]. vm_compute. reflexivity.
Defined.

Lemma wrap32_small (z : Z) : (- 2 ^ 31 ≤ z < 2 ^ 31)%Z → wrap32 z = z.
Proof. intros Hz. unfold wrap32. rewrite Z.mod_small; lia. Qed.

(** The offsets do not overflow: in the image of the column split every
    pixel of the block of device [i] is the kernel's count plus [10 * i],
    a number between [10 * i] and [10 * i + 100] (between 0 and 130 for the
    four devices of the cell). *)
Theorem column_image_values (rows cols total_gpus : nat) (xmin xmax ymin ymax : float) :
  0 < total_gpus → (Z.of_nat total_gpus * 10 + 100 < 2 ^ 31)%Z →
  ∃ M, split_by_columns rows cols total_gpus xmin xmax ymin ymax = inr M
       ∧ ∀ r c v, getitem M r c = Some v →
           ∃ i v0, i < total_gpus ∧ i * (cols / 4) ≤ c < (i + 1) * (cols / 4)
                   ∧ getitem (column_kernel_output rows cols total_gpus
                                xmin xmax ymin ymax i) r (c - i * (cols / 4)) = Some v0
                   ∧ (0 ≤ v0 ≤ 100)%Z ∧ v = (v0 + Z.of_nat i * 10)%Z.
Proof.
  intros HP Hsmall.
  destruct (split_by_columns_spec rows cols total_gpus xmin xmax ymin ymax HP)
    as (M & HM & Hshape & Hget).
  exists M. split; [done|]. intros r c v Hv.
  destruct (getitem_inside _ _ _ r c v Hshape Hv) as [Hr Hc].
  destruct (block_index (cols / 4) total_gpus c Hc) as (i & Hi & Hci).
  replace c with (i * (cols / 4) + (c - i * (cols / 4))) in Hv by lia.
  rewrite Hget in Hv by lia. unfold column_block in Hv.
  rewrite getitem_add_scalar in Hv.
  destruct (getitem (column_kernel_output rows cols total_gpus xmin xmax ymin ymax i)
              r (c - i * (cols / 4))) as [v0|] eqn:Hv0; [|done].
  injection Hv as <-.
  assert (0 ≤ v0 ≤ 100)%Z as Hb.
  { unfold column_kernel_output in Hv0.
    apply kernel_output_inv in Hv0 as (x & y & _ & _ & ->).
    apply count_at_most_100. }
  exists i, v0. split; [done|]. split; [done|]. split; [done|]. split; [done|].
  apply wrap32_small. lia.
Qed.

Lemma column_image_values_witness :
  ∃ M, split_by_columns 3 8 4 (-2) 1 (-1) 1 = inr M
       ∧ ∀ r c v, getitem M r c = Some v → (0 ≤ v ≤ 130)%Z.
Proof.
  destruct (column_image_values 3 8 4 (-2) 1 (-1) 1) as (M & HM & Hval);
    [lia | reflexivity |].
  exists M. split; [done|]. intros r c v Hv.
  destruct (Hval r c v Hv) as (i & v0 & Hi & _ & _ & Hb & ->). lia.
Defined.
